(** * formula1-predictor: the prediction engine and its collaborators

    A shallow embedding of [formula1/predictor.py] and of the display
    boundary of [formula1/cli.py], followed by the properties of the
    specification established over it.

    Conventions.
    - Python values that travel through the engine are the cells of a results
      table: [None], floats, integers and text ([scalar]).
    - A Python exception is a value of [exn]; code that may raise lives in the
      error monad [Res], with stdpp's [x ← e; k] notation.
    - The process-wide random generator is an explicit stream of raw draws
      ([rng]) threaded through [sample] and [choice].
    - Text is a byte string holding UTF-8, as the source file does. *)

From Stdlib Require Import ZArith QArith String Ascii List Sorted Lia.
From stdpp Require Import base option list gmap strings pretty.

Close Scope Q_scope.
Local Open Scope string_scope.
Local Open Scope Z_scope.

(** ** Exceptions and the error monad *)

(** The exception classes met here.  [KeyError] keeps the missing key and
    [AttributeError] the type and the attribute; the others keep their
    message. *)
Inductive exn : Type :=
| KeyError (key : string)
| ValueError (message : string)
| OverflowError (message : string)
| TypeError (message : string)
| AttributeError (type_name attr : string)
| IndexError (message : string)
| Exception (message : string).

Inductive Res (A : Type) : Type :=
| Ok (a : A)
| Raise (e : exn).

Arguments Ok {A} a.
Arguments Raise {A} e.

#[global] Instance Res_ret : MRet Res := fun A a => Ok a.
#[global] Instance Res_bind : MBind Res := fun A B f m =>
  match m with
  | Ok a => f a
  | Raise e => Raise e
  end.
#[global] Instance Res_fmap : FMap Res := fun A B f m =>
  match m with
  | Ok a => Ok (f a)
  | Raise e => Raise e
  end.

(** [str(e)], as an f-string field renders it.  A key is shown quoted. *)
Definition exn_str (e : exn) : string :=
  match e with
  | KeyError k => "'" +:+ k +:+ "'"
  | AttributeError t a => "'" +:+ t +:+ "' object has no attribute '" +:+ a +:+ "'"
  | ValueError m | OverflowError m | TypeError m | IndexError m | Exception m => m
  end.

(** ** Scalars: the cells of a table and the fields of an event *)

(** A float is NaN, an infinity, or finite; a finite float is kept by its
    exact value. *)
Inductive pyfloat : Type :=
| FNaN
| FInf (negative : bool)
| FFin (q : Q).

Inductive scalar : Type :=
| SNone
| SFloat (f : pyfloat)
| SInt (z : Z)
| SStr (s : string).

(** [type(x).__name__]. *)
Definition type_name (x : scalar) : string :=
  match x with
  | SNone => "NoneType"
  | SFloat _ => "float"
  | SInt _ => "int"
  | SStr _ => "str"
  end.

(** [pd.isna(x)] on a scalar. *)
Definition isna (x : scalar) : bool :=
  match x with
  | SNone => true
  | SFloat FNaN => true
  | _ => false
  end.

(** [bool(x)]: the truth value Python's [if x] tests.  NaN is true. *)
Definition truthy (x : scalar) : bool :=
  match x with
  | SNone => false
  | SFloat FNaN => true
  | SFloat (FInf _) => true
  | SFloat (FFin q) => negb (Qnum q =? 0)
  | SInt z => negb (z =? 0)
  | SStr s => negb (String.eqb s "")
  end.

(** *** [int(text)] in base 10, on ASCII text

    [int] on a [str] also reads the decimal digits and the white space of
    the other scripts: the engine takes it as a parameter ([int_of_str]
    below).  [int_of_text] is what it does on short ASCII text, and is the
    instance at which the engine is run on the sample tables. *)

Definition is_space (c : ascii) : bool :=
  let n := nat_of_ascii c in
  ((9 <=? n) && (n <=? 13) || (n =? 32))%nat.

Definition digit_of (c : ascii) : option Z :=
  let n := Z.of_nat (nat_of_ascii c) in
  if (48 <=? n) && (n <=? 57) then Some (n - 48) else None.

Fixpoint lstrip (l : list ascii) : list ascii :=
  match l with
  | c :: l' => if is_space c then lstrip l' else l
  | [] => []
  end.

Definition strip (l : list ascii) : list ascii :=
  rev (lstrip (rev (lstrip l))).

(** Digits with single underscores between them; [after_digit] tells whether
    the previous character was a digit. *)
Fixpoint digits_value (acc : Z) (after_digit : bool) (l : list ascii) : option Z :=
  match l with
  | [] => if after_digit then Some acc else None
  | c :: l' =>
      match digit_of c with
      | Some d => digits_value (10 * acc + d) true l'
      | None =>
          if Ascii.eqb c "_" && after_digit then digits_value acc false l'
          else None
      end
  end.

Definition int_of_text (s : string) : Res Z :=
  let body := strip (list_ascii_of_string s) in
  let signed :=
    match body with
    | c :: l' =>
        if Ascii.eqb c "-" then Z.opp <$> digits_value 0 false l'
        else if Ascii.eqb c "+" then digits_value 0 false l'
        else digits_value 0 false body
    | [] => None
    end in
  match signed with
  | Some z => Ok z
  | None => Raise (ValueError ("invalid literal for int() with base 10: '" +:+ s +:+ "'"))
  end.

(** *** [str.lower] on Latin-1 text, and the substring test [a in b]

    [str.lower] folds the letters of every script: the engine takes it as a
    parameter ([lower_of_str] below).  [lower] is what it does on text
    whose code points are all below U+0100, where the only letters with a
    lower-case form are A to Z and U+00C0 to U+00DE (the sign U+00D7
    apart). *)

Definition is_upper (c : ascii) : bool :=
  let n := nat_of_ascii c in ((65 <=? n) && (n <=? 90))%nat.

(** The second byte of a two-byte UTF-8 sequence led by [0xC3] holds an
    upper-case Latin-1 letter (U+00C0 to U+00DE, the sign U+00D7 apart). *)
Definition is_latin1_upper_tail (c : ascii) : bool :=
  let n := nat_of_ascii c in
  ((128 <=? n) && (n <=? 158) && negb (n =? 151))%nat.

Definition shift32 (c : ascii) : ascii :=
  ascii_of_nat (nat_of_ascii c + 32).

(** [s.lower()] for a text of Latin-1 code points, in UTF-8. *)
Fixpoint lower (s : string) : string :=
  match s with
  | EmptyString => EmptyString
  | String c s' =>
      if is_upper c then String (shift32 c) (lower s')
      else
        match s' with
        | String c' s'' =>
            if Ascii.eqb c "195" && is_latin1_upper_tail c'
            then String c (String (shift32 c') (lower s''))
            else String c (lower s')
        | EmptyString => String c EmptyString
        end
  end.

(** The text is the UTF-8 form of code points below U+0100: ASCII bytes,
    and two-byte sequences led by [0xC2] or [0xC3]. *)
Fixpoint latin1_text (s : string) : bool :=
  match s with
  | EmptyString => true
  | String c s' =>
      if (nat_of_ascii c <? 128)%nat then latin1_text s'
      else
        match s' with
        | String c' s'' =>
            ((nat_of_ascii c =? 194) || (nat_of_ascii c =? 195))%nat
            && ((128 <=? nat_of_ascii c') && (nat_of_ascii c' <=? 191))%nat
            && latin1_text s''
        | EmptyString => false
        end
  end.

(** [needle in hay]. *)
Fixpoint contains (needle hay : string) : bool :=
  String.prefix needle hay ||
  match hay with
  | EmptyString => false
  | String _ hay' => contains needle hay'
  end.

(** [repr] of a float with an integral value of magnitude below [10^16],
    which Python prints with one zero decimal ([1.0], [-3.0]).  It is the
    instance at which the engine is run on concrete tables; the properties
    below hold for whatever [repr] does on finite floats. *)
Definition repr_integral (q : Q) : string :=
  pretty (Z.quot (Qnum q) (Z.pos (Qden q))) +:+ ".0".

(** ** The [random] module over an explicit stream of draws *)

Module random.

Definition rng : Type := nat → nat.

Definition randbelow (n : nat) (g : rng) : nat * rng :=
  ((g O `mod` n)%nat, λ i, g (S i)).

(** [seq[i]] for a list. *)
Definition index {A} (seq : list A) (i : nat) : Res A :=
  match seq !! i with
  | Some x => Ok x
  | None => Raise (IndexError "list index out of range")
  end.

(** [random.choice(seq)]. *)
Definition choice {A} (seq : list A) (g : rng) : Res (A * rng) :=
  let '(j, g1) := randbelow (length seq) g in
  x ← index seq j;
  Ok (x, g1).

(** The loop of [random.sample]: the first [live] slots of [pool] hold the
    elements not drawn yet; the drawn slot is refilled with the last live
    one. *)
Fixpoint sample_loop {A} (k : nat) (pool : list A) (live : nat) (g : rng)
  : Res (list A * rng) :=
  match k with
  | O => Ok ([], g)
  | S k' =>
      let '(j, g1) := randbelow live g in
      x ← index pool j;
      y ← index pool (live - 1)%nat;
      '(rest, g2) ← sample_loop k' (<[j:=y]> pool) (live - 1)%nat g1;
      Ok (x :: rest, g2)
  end.

(** [random.sample(population, k)] for a count [k ≥ 0].  CPython draws by
    rejection instead when the population exceeds 21 elements; the draw is
    without replacement either way. *)
Definition sample {A} (population : list A) (k : nat) (g : rng)
  : Res (list A * rng) :=
  if (k <=? length population)%nat
  then sample_loop k population (length population) g
  else Raise (ValueError "Sample larger than population or is negative").

End random.

Abbreviation rng := random.rng.

(** ** Tables: a [DataFrame] and the rows [iterrows] yields *)

(** A row: its labels with their cells, in column order.  A label is looked
    up by its first occurrence: the tables meant are those whose column
    labels are pairwise distinct, as the provider's are.  (For a repeated
    label pandas hands back a sub-series instead of a cell, and the truth
    test of line 121 on it raises [ValueError]; the statements that say the
    engine does not raise assume distinct labels.) *)
Definition Series : Type := list (string * scalar).

Record DataFrame : Type := {
  columns : list string;
  data : list (list scalar)
}.

(** [df.empty]: some axis has length zero. *)
Definition df_empty (df : DataFrame) : bool :=
  match columns df, data df with
  | [], _ => true
  | _, [] => true
  | _, _ => false
  end.

(** The rows, each with the cells as stored.  (pandas converts the cells of
    a row to one common type: a table with a text column, as the provider's,
    keeps them as stored, while a row of numbers only turns its integers
    into floats.) *)
Definition iterrows (df : DataFrame) : list Series :=
  map (λ cells, zip (columns df) cells) (data df).

Fixpoint series_find (row : Series) (label : string) : option scalar :=
  match row with
  | [] => None
  | (l, c) :: row' => if String.eqb l label then Some c else series_find row' label
  end.

(** [label in row]. *)
Definition series_contains (label : string) (row : Series) : bool :=
  match series_find row label with
  | Some _ => true
  | None => false
  end.

(** [row[label]]. *)
Definition series_getitem (row : Series) (label : string) : Res scalar :=
  match series_find row label with
  | Some c => Ok c
  | None => Raise (KeyError label)
  end.

(** [row.get(label, default)]. *)
Definition series_get (row : Series) (label : string) (default : scalar) : scalar :=
  match series_find row label with
  | Some c => c
  | None => default
  end.

(** ** [formula1/predictor.py] *)

Definition CIRCUIT_TIDBITS : list (string * string) := [
  ("Bahrain", "Known for its abrasive surface, tire degradation is always a key factor.");
  ("Jeddah", "A high-speed street circuit. Expect close walls and high drama.");
  ("Melbourne", "A fan favorite to start the season. It's a tricky, bumpy track.");
  ("Imola", "An old-school, unforgiving track. Mistakes are punished harshly.");
  ("Miami", "A modern track with a mix of high-speed straights and technical sections.");
  ("Monaco", "The crown jewel. Overtaking is nearly impossible, so qualifying is everything.");
  ("Baku", "Chaos is the name of the game here with its long straight and tight castle section.");
  ("Montréal", "The 'Wall of Champions' awaits. A track that rewards aggressive driving.");
  ("Catalunya", "A circuit teams know inside-out. Car performance is truly tested here.");
  ("Spielberg", "A short, fast lap with big elevation changes. Expect close racing.");
  ("Silverstone", "The historic home of F1. High-speed corners like Maggots and Becketts are legendary.");
  ("Budapest", "Often called 'Monaco without the walls'. It's tight, twisty, and hot.");
  ("Spa-Francorchamps", "A true driver's circuit. Eau Rouge and Raidillon are iconic.");
  ("Zandvoort", "A banked, flowing circuit that is a huge challenge for drivers.");
  ("Monza", "The 'Temple of Speed'. It's all about low drag and high straight-line speed.");
  ("Singapore", "A grueling, humid night race on a bumpy street circuit.");
  ("Suzuka", "A legendary figure-eight track loved by all drivers.");
  ("Austin", "A modern classic with a bit of everything, from fast sweeps to heavy braking.");
  ("Mexico City", "The high altitude saps engine power and tests cooling systems to their limit.");
  ("São Paulo", "Famous for its unpredictable weather and passionate fans. Always exciting.");
  ("Las Vegas", "A spectacular night race down the famous Strip. It's all about the show.");
  ("Lusail", "A fast, flowing track originally built for MotoGP, making it tough on drivers' necks.");
  ("Abu Dhabi", "The season finale. A modern circuit that often hosts title deciders under the lights.")
].

(** *** [get_next_gp] *)

(** A row of the season's schedule; [EventDate] is a UTC timestamp. *)
Record Event : Type := {
  EventName : string;
  Location : string;
  EventDate : Z
}.

Definition query_given (gp_name_query : option string) : option string :=
  match gp_name_query with
  | Some q => if String.eqb q "" then None else Some q
  | None => None
  end.

Definition not_found_message (q : string) : string :=
  "Could not find a future Grand Prix matching '" +:+ q +:+ "'.".

(** The schedule service is taken as two inputs: the outcome of
    [fastf1.get_event_schedule] for the current year and the schedule's
    [get_event_by_name]; [now] is the current time. *)
Definition get_next_gp
    (get_event_schedule : Res (list Event))
    (get_event_by_name : list Event → string → Res (option Event))
    (now : Z) (gp_name_query : option string)
  : option Event * option string :=
  let attempt : Res (option Event * option string) :=
    schedule ← get_event_schedule;
    let future_events := filter (λ e, now ≤ EventDate e) schedule in
    match future_events with
    | [] => Ok (None, Some "No upcoming races found for the rest of the season.")
    | first :: _ =>
        match query_given gp_name_query with
        | Some q =>
            event ← get_event_by_name schedule q;
            match event with
            | Some e =>
                if bool_decide (now ≤ EventDate e) then Ok (Some e, None)
                else Ok (None, Some (not_found_message q))
            | None => Ok (None, Some (not_found_message q))
            end
        | None => Ok (Some first, None)
        end
    end in
  match attempt with
  | Ok r => r
  | Raise e => (None, Some ("Network error getting race schedule: " +:+ exn_str e))
  end.

(** *** [generate_prediction] *)

(** The dict built for each candidate (lines 130 to 134). *)
Record Driver : Type := {
  name : scalar;
  position : Z;
  constructor : scalar
}.

(** The event descriptor: a dict, or an object read by attribute. *)
Inductive event : Type :=
| EventDict (items : gmap string scalar)
| EventObject (attrs : gmap string scalar).

(** [d.get(key)] and [getattr(o, key, None)]. *)
Definition dict_get (items : gmap string scalar) (key : string) : scalar :=
  default SNone (items !! key).

Definition getattr (attrs : gmap string scalar) (key : string) (dflt : scalar) : scalar :=
  default dflt (attrs !! key).

(** The values held by the returned dict. *)
Inductive value : Type :=
| VScalar (s : scalar)
| VDriver (d : Driver)
| VDrivers (l : list Driver).

(** The three candidate lists, kept beside the result of a run. *)
Record Pools : Type := {
  top_contenders : list Driver;
  midfield_strong : list Driver;
  midfield_pack : list Driver
}.

Definition error_record : gmap string value :=
  {[ "error" := VScalar (SStr "Cannot generate prediction without driver standings.") ]}.

Definition DEFAULT_TIDBIT : string := "A circuit that always brings excitement!".

Section Engine.

(** Three builtins are parameters of the engine: [int] on a [str],
    [str.lower], and [repr] of a finite float given by its exact value. *)
Variable int_of_str : string → Res Z.
Variable lower_of_str : string → string.
Variable float_repr : Q → string.

(** On Latin-1 text [str.lower] is [lower]. *)
Hypothesis lower_of_str_latin1 :
  ∀ s, latin1_text s = true → lower_of_str s = lower s.

(** [int(x)].  A float is truncated toward zero. *)
Definition py_int (x : scalar) : Res Z :=
  match x with
  | SNone =>
      Raise (TypeError "int() argument must be a string, a bytes-like object or a real number, not 'NoneType'")
  | SFloat FNaN => Raise (ValueError "cannot convert float NaN to integer")
  | SFloat (FInf _) => Raise (OverflowError "cannot convert float infinity to integer")
  | SFloat (FFin q) => Ok (Z.quot (Qnum q) (Z.pos (Qden q)))
  | SInt z => Ok z
  | SStr s => int_of_str s
  end.

(** [x.lower()] on a scalar: only text has the method. *)
Definition str_lower (x : scalar) : Res string :=
  match x with
  | SStr s => Ok (lower_of_str s)
  | _ => Raise (AttributeError (type_name x) "lower")
  end.

(** Lines 161 to 164: the loop over [CIRCUIT_TIDBITS] in the order of the
    table, left at the first matching key. *)
Fixpoint tidbit_loop (table : list (string * string)) (event_name : scalar)
    (tidbit : string) : Res string :=
  match table with
  | [] => Ok tidbit
  | (key, text) :: table' =>
      lowered ← str_lower event_name;
      if contains (lower_of_str key) lowered then Ok text
      else tidbit_loop table' event_name tidbit
  end.

(** The two fields read from the descriptor, by key or by attribute. *)
Definition event_fields (ev : event) : scalar * scalar :=
  match ev with
  | EventDict items => (dict_get items "EventName", dict_get items "Location")
  | EventObject attrs =>
      (getattr attrs "EventName" SNone, getattr attrs "Location" SNone)
  end.

(** Lines 149 to 164: the event's name and location, and the tidbit. *)
Definition describe_event (event_info : option event)
  : Res (scalar * scalar * string) :=
  let tidbit := DEFAULT_TIDBIT in
  match event_info with
  | None => Ok (SNone, SNone, tidbit)
  | Some ev =>
      let '(event_name, event_location) := event_fields ev in
      tidbit' ← (if truthy event_name
                 then tidbit_loop CIRCUIT_TIDBITS event_name tidbit
                 else Ok tidbit);
      Ok (event_name, event_location, tidbit')
  end.

(** Lines 166 to 173: the dict that is returned. *)
Definition make_prediction (event_name event_location : scalar) (tidbit : string)
    (podium_favorites : list Driver) (dark_horse potential_surprise : value)
  : gmap string value :=
  {[ "event_name" :=
       VScalar (if truthy event_name then event_name else SStr "Unknown Event");
     "location" :=
       VScalar (if truthy event_location then event_location
                else SStr "Unknown Location");
     "tidbit" := VScalar (SStr tidbit);
     "podium_favorites" := VDrivers podium_favorites;
     "dark_horse" := dark_horse;
     "potential_surprise" := potential_surprise ]}.

(** Lines 137, 144 and 146: the three list comprehensions. *)
Definition make_pools (drivers : list Driver) : Pools :=
  {| top_contenders := filter (λ d, position d ≤ 5) drivers;
     midfield_strong := filter (λ d, 4 ≤ position d ≤ 8) drivers;
     midfield_pack := filter (λ d, 9 ≤ position d ≤ 15) drivers |}.

(** Lines 145 and 147: [random.choice(pool) if pool else None]. *)
Definition choice_or_none (pool : list Driver) (g : rng) : Res (value * rng) :=
  match pool with
  | [] => Ok (VScalar SNone, g)
  | _ :: _ => '(d, g') ← random.choice pool g; Ok (VDriver d, g')
  end.

(** [str(x)], which is also what an f-string field renders. *)
Definition py_str (x : scalar) : string :=
  match x with
  | SNone => "None"
  | SFloat FNaN => "nan"
  | SFloat (FInf false) => "inf"
  | SFloat (FInf true) => "-inf"
  | SFloat (FFin q) => float_repr q
  | SInt z => pretty z
  | SStr s => s
  end.

(** Lines 123 to 129: the name of the driver of a row. *)
Definition driver_name (driver : Series) : Res scalar :=
  if series_contains "GivenName" driver && series_contains "FamilyName" driver then
    given ← series_getitem driver "GivenName";
    family ← series_getitem driver "FamilyName";
    Ok (SStr (py_str given +:+ " " +:+ py_str family))
  else if series_contains "Driver" driver then
    series_getitem driver "Driver"
  else
    Ok (SStr (py_str (series_get driver "Abbreviation" (SStr "Unknown")))).

(** Lines 121 to 134, one turn of the loop over the rows: no candidate when
    the row is skipped.  The dict display evaluates the name, then
    [int(driver['Position'])], then [driver['TeamName']]. *)
Definition driver_of_row (driver : Series) : Res (option Driver) :=
  pos ← series_getitem driver "Position";
  if isna pos then Ok None
  else
    nm ← driver_name driver;
    pos' ← series_getitem driver "Position";
    p ← py_int pos';
    team ← series_getitem driver "TeamName";
    Ok (Some {| name := nm; position := p; constructor := team |}).

(** Lines 119 to 134: the candidates, in row order; the first row that
    raises ends the loop. *)
Fixpoint collect_drivers (rows : list Series) : Res (list Driver) :=
  match rows with
  | [] => Ok []
  | row :: rows' =>
      candidate ← driver_of_row row;
      drivers ← collect_drivers rows';
      Ok (match candidate with
          | Some d => d :: drivers
          | None => drivers
          end)
  end.

(** Lines 114 to 175, a run of [generate_prediction]: it returns the dict
    and, beside it, the candidate pools it built (none on the early
    return). *)
Definition generate_prediction_run (standings_df : option DataFrame)
    (event_info : option event) (g : rng)
  : Res (option Pools * gmap string value) :=
  match standings_df with
  | None => Ok (None, error_record)
  | Some df =>
      if df_empty df then Ok (None, error_record)
      else
        drivers ← collect_drivers (iterrows df);
        let pools := make_pools drivers in
        let num_to_sample := (3 `min` length (top_contenders pools))%nat in
        '(podium_favorites, g1) ← random.sample (top_contenders pools) num_to_sample g;
        '(dark_horse, g2) ← choice_or_none (midfield_strong pools) g1;
        '(potential_surprise, g3) ← choice_or_none (midfield_pack pools) g2;
        '(event_name, event_location, tidbit) ← describe_event event_info;
        Ok (Some pools,
            make_prediction event_name event_location tidbit
              podium_favorites dark_horse potential_surprise)
  end.

Definition generate_prediction (standings_df : option DataFrame)
    (event_info : option event) (g : rng) : Res (gmap string value) :=
  snd <$> generate_prediction_run standings_df event_info g.

(** ** [formula1/cli.py]: the display boundary *)

(** What [print_prediction] hands to the console: the error line, or the
    panel with the fields it reads from the dict.  The rendering by the
    console library is not part of it: that library reads its own markup in
    the texts and rejects a closing tag [[/...]] that closes nothing, so a
    text is rendered as it stands when it holds no bracket [[]
    ([plain_text] below). *)
Inductive console_output : Type :=
| ErrorLine (message : value)
| PredictionPanel (event_name location tidbit podium_favorites : value)
    (dark_horse potential_surprise : option value).

Definition value_truthy (v : value) : bool :=
  match v with
  | VScalar s => truthy s
  | VDriver _ => true
  | VDrivers l => negb (bool_decide (l = []))
  end.

(** [prediction[key]]. *)
Definition dict_getitem (prediction : gmap string value) (key : string) : Res value :=
  match prediction !! key with
  | Some v => Ok v
  | None => Raise (KeyError key)
  end.

Definition shown_if_truthy (v : value) : option value :=
  if value_truthy v then Some v else None.

(** The panel branch: every field is read with [prediction[key]]. *)
Definition print_panel (prediction : gmap string value) : Res console_output :=
  event_name ← dict_getitem prediction "event_name";
  location ← dict_getitem prediction "location";
  tidbit ← dict_getitem prediction "tidbit";
  podium ← dict_getitem prediction "podium_favorites";
  dark_horse ← dict_getitem prediction "dark_horse";
  potential_surprise ← dict_getitem prediction "potential_surprise";
  Ok (PredictionPanel event_name location tidbit podium
        (shown_if_truthy dark_horse) (shown_if_truthy potential_surprise)).

(** [if prediction.get("error"): ... return], else the panel. *)
Definition print_prediction (prediction : gmap string value) : Res console_output :=
  match prediction !! "error" with
  | Some message =>
      if value_truthy message then Ok (ErrorLine message)
      else print_panel prediction
  | None => print_panel prediction
  end.

(** ** Vocabulary of the statements *)

(** The name of a row by the labels it has, whatever the cells hold: given
    and family name when the row has both labels, else the cell under
    [Driver], else the text of the cell under [Abbreviation], else
    ["Unknown"]. *)
Definition preferred_name (row : Series) : scalar :=
  match series_find row "GivenName", series_find row "FamilyName" with
  | Some given, Some family => SStr (py_str given +:+ " " +:+ py_str family)
  | _, _ =>
      match series_find row "Driver" with
      | Some ident => ident
      | None =>
          match series_find row "Abbreviation" with
          | Some abbr => SStr (py_str abbr)
          | None => SStr "Unknown"
          end
      end
  end.

(** The tidbit in the specification's words: the entry of the first circuit
    name that occurs in the event name, both put in lower case by
    [str.lower]; the generic text when none does. *)
Definition tidbit_by_match (event_name : string) : string :=
  match List.find (λ entry, contains (lower_of_str (fst entry))
                              (lower_of_str event_name))
          CIRCUIT_TIDBITS with
  | Some entry => snd entry
  | None => DEFAULT_TIDBIT
  end.

Definition event_name_of (event_info : option event) : scalar :=
  match event_info with
  | Some ev => fst (event_fields ev)
  | None => SNone
  end.

Definition event_location_of (event_info : option event) : scalar :=
  match event_info with
  | Some ev => snd (event_fields ev)
  | None => SNone
  end.

(** The descriptor's name is text, or is one the engine does not use
    ([None], zero, empty). *)
Definition event_name_usable (event_info : option event) : Prop :=
  truthy (event_name_of event_info) = false
  ∨ ∃ s, event_name_of event_info = SStr s.

(** The descriptor is absent, or has no entry under [key]. *)
Definition field_absent (event_info : option event) (key : string) : Prop :=
  match event_info with
  | None => True
  | Some (EventDict items) => items !! key = None
  | Some (EventObject attrs) => attrs !! key = None
  end.

(** A single pick: none from an empty pool, else a member of the pool. *)
Definition drawn_from (pool : list Driver) (v : value) : Prop :=
  match pool with
  | [] => v = VScalar SNone
  | _ :: _ => ∃ d, v = VDriver d ∧ d ∈ pool
  end.

(** A row the engine can read: it has a position and a team name that is
    text, and the position is missing or one [int] accepts. *)
Definition row_readable (row : Series) : Prop :=
  ∃ pos team,
    series_find row "Position" = Some pos
    ∧ series_find row "TeamName" = Some (SStr team)
    ∧ (isna pos = true ∨ ∃ z, py_int pos = Ok z).

(** The same tidbit computed with [lower], for names of Latin-1 text. *)
Definition tidbit_latin1 (event_name : string) : string :=
  match List.find (λ entry, contains (lower (fst entry)) (lower event_name))
          CIRCUIT_TIDBITS with
  | Some entry => snd entry
  | None => DEFAULT_TIDBIT
  end.




(** A text without bracket: the console renders it as it stands. *)
Definition plain_text (s : string) : bool := negb (contains "[" s).

(** The driver is shown by texts without bracket. *)
Definition plain_driver (d : Driver) : Prop :=
  plain_text (py_str (name d)) = true ∧ plain_text (py_str (constructor d)) = true.


Definition sorted_by_date (schedule : list Event) : Prop :=
  StronglySorted (λ a b, EventDate a ≤ EventDate b) schedule.

Definition PREDICTION_KEYS : gset string :=
  {[ "event_name"; "location"; "tidbit"; "podium_favorites"; "dark_horse";
     "potential_surprise" ]}.

(** A kept row: its position is there and not missing. *)
Definition row_kept (row : Series) : bool :=
  match series_find row "Position" with
  | Some pos => negb (isna pos)
  | None => false
  end.

(** ** Sample inputs *)

Definition float_of_Z (z : Z) : scalar := SFloat (FFin (inject_Z z)).

(** A classification in the provider's layout: positions are floats, a
    driver who was not classified has none. *)
Definition race_results : DataFrame :=
  {| columns := ["Position"; "TeamName"; "Abbreviation"];
     data := [ [float_of_Z 1; SStr "Red Bull Racing"; SStr "VER"];
               [float_of_Z 2; SStr "McLaren"; SStr "NOR"];
               [SFloat FNaN; SStr "Haas F1 Team"; SStr "MAG"];
               [float_of_Z 4; SStr "Ferrari"; SStr "LEC"];
               [float_of_Z 3; SStr "Ferrari"; SStr "SAI"];
               [float_of_Z 9; SStr "Williams"; SStr "ALB"] ] |}.

(** The same layout with the position given as text. *)
Definition text_results : DataFrame :=
  {| columns := ["Position"; "TeamName"; "Abbreviation"];
     data := [ [SStr "1"; SStr "Red Bull Racing"; SStr "VER"];
               [SStr "DNF"; SStr "Haas F1 Team"; SStr "MAG"] ] |}.

(** A table with name fields. *)
Definition named_results : DataFrame :=
  {| columns := ["Position"; "TeamName"; "GivenName"; "FamilyName"; "Abbreviation"];
     data := [ [float_of_Z 1; SStr "Red Bull Racing"; SStr "Max"; SStr "Verstappen";
                SStr "VER"] ] |}.

Definition monaco : event :=
  EventObject {[ "EventName" := SStr "Monaco Grand Prix"; "Location" := SStr "Monaco" ]}.

Definition obscuretown : event :=
  EventDict {[ "EventName" := SStr "Obscuretown Grand Prix" ]}.

Definition draws_low : rng := λ _, 0%nat.
Definition draws_high : rng := λ i, (2 * i + 1)%nat.

Definition round_a : Event :=
  {| EventName := "Monaco Grand Prix"; Location := "Monaco"; EventDate := 300 |}.
Definition round_b : Event :=
  {| EventName := "Spanish Grand Prix"; Location := "Catalunya"; EventDate := 200 |}.
Definition round_c : Event :=
  {| EventName := "Canadian Grand Prix"; Location := "Montréal"; EventDate := 400 |}.

(** A lookup by exact name, standing for the schedule's own search. *)
Definition exact_name (schedule : list Event) (q : string) : Res (option Event) :=
  Ok (List.find (λ e, String.eqb (EventName e) q) schedule).

(** The candidates built from [race_results]: the unclassified row is left
    out. *)
Definition race_candidates : list Driver :=
  [ {| name := SStr "VER"; position := 1; constructor := SStr "Red Bull Racing" |};
    {| name := SStr "NOR"; position := 2; constructor := SStr "McLaren" |};
    {| name := SStr "LEC"; position := 4; constructor := SStr "Ferrari" |};
    {| name := SStr "SAI"; position := 3; constructor := SStr "Ferrari" |};
    {| name := SStr "ALB"; position := 9; constructor := SStr "Williams" |} ].



Definition dated_schedule : list Event := [round_b; round_a; round_c].
Definition shuffled_schedule : list Event := [round_a; round_b; round_c].

(** ** [get_driver_standings] and [main] *)

(** A row of the schedule with its round number. *)
Record Round : Type := {
  round_event : Event;
  RoundNumber : Z
}.

(** Lines 91 to 94: the mask of the completed races.  The pattern
    "Grand Prix" has no special character, so [str.contains] is the plain,
    case-sensitive substring test. *)
Definition completed_race (now : Z) (r : Round) : Prop :=
  contains "Grand Prix" (EventName (round_event r)) = true
  ∧ EventDate (round_event r) < now.

(** Lines 80 to 107.  The services are inputs: [get_event_schedule] for a
    year, and [get_session_results year round] for the race session of a
    round, loaded, with its results. *)
Definition get_driver_standings
    (year : Z)
    (get_event_schedule : Z → Res (list Round))
    (get_session_results : Z → Z → Res DataFrame)
    (now : Z)
  : option DataFrame * option string :=
  let attempt : Res (option DataFrame * option string) :=
    schedule ← get_event_schedule year;
    let completed_races := filter (completed_race now) schedule in
    match last completed_races with
    | None => Ok (None, Some "The season has not started yet. No standings available.")
    | Some last_race =>
        results ← get_session_results year (RoundNumber last_race);
        Ok (Some results, None)
    end in
  match attempt with
  | Ok r => r
  | Raise e =>
      (None, Some ("Could not fetch driver standings using fastf1: " +:+ exn_str e))
  end.

(** The event object handed on by [main]: the engine reads its [EventName]
    and [Location] attributes. *)
Definition event_object (e : Event) : event :=
  EventObject {[ "EventName" := SStr (EventName e); "Location" := SStr (Location e) ]}.

(** What [main] hands to the console, in order; the markup of the fixed
    texts is left out, and so is the rendering (see [console_output]). *)
Inductive printed : Type :=
| Welcome
| Notice (text : string)
| ErrorMessage (error : string)
| Display (out : console_output).

(** [if error:] on the second component of a lookup. *)
Definition error_given (error : option string) : option string :=
  match error with
  | Some msg => if String.eqb msg "" then None else Some msg
  | None => None
  end.

(** [cli.py], lines 76 to 105.  The clock is read once by each lookup:
    [year_next], [now_next] by [get_next_gp] and [year_last], [now_last] by
    [get_driver_standings]. *)
Definition main
    (get_event_schedule : Z → Res (list Round))
    (get_event_by_name : list Event → string → Res (option Event))
    (get_session_results : Z → Z → Res DataFrame)
    (year_next now_next year_last now_last : Z)
    (gp_name : option string) (g : rng)
  : Res (list printed) :=
  let intro :=
    match query_given gp_name with
    | None => [Welcome; Notice "Getting the next race on the calendar..."]
    | Some _ => []
    end in
  let '(event_info, error) :=
    get_next_gp (map round_event <$> get_event_schedule year_next)
      get_event_by_name now_next gp_name in
  match error_given error with
  | Some msg => Ok (intro ++ [ErrorMessage msg])%list
  | None =>
      let '(standings, error) :=
        get_driver_standings year_last get_event_schedule get_session_results
          now_last in
      match error_given error with
      | Some msg => Ok (intro ++ [ErrorMessage msg])%list
      | None =>
          prediction ← generate_prediction standings (event_object <$> event_info) g;
          out ← print_prediction prediction;
          Ok (intro ++ [Display out])%list
      end
  end.

(** ** More vocabulary *)

(** The drivers a returned dict names: the podium, then the two picks. *)
Definition drivers_of_value (v : option value) : list Driver :=
  match v with
  | Some (VDrivers l) => l
  | Some (VDriver d) => [d]
  | _ => []
  end.

Definition shown_drivers (r : gmap string value) : list Driver :=
  drivers_of_value (r !! "podium_favorites")
  ++ drivers_of_value (r !! "dark_horse")
  ++ drivers_of_value (r !! "potential_surprise").

(** What [main] prints before the lookups: the welcome panel and a notice
    when no race name is given. *)
Definition intro_lines (gp_name : option string) : list printed :=
  match query_given gp_name with
  | None => [Welcome; Notice "Getting the next race on the calendar..."]
  | Some _ => []
  end.



(** The ways a row makes the loop raise [ex]: no position cell; a position
    that is not missing and that [int] rejects; a readable position and no
    team cell. *)
Definition row_raises (row : Series) (ex : exn) : Prop :=
  (series_find row "Position" = None ∧ ex = KeyError "Position")
  ∨ ∃ pos,
      series_find row "Position" = Some pos
      ∧ isna pos = false
      ∧ (py_int pos = Raise ex
         ∨ ((∃ z, py_int pos = Ok z)
            ∧ series_find row "TeamName" = None
            ∧ ex = KeyError "TeamName")).

(** ** More sample inputs *)

Definition season : list Round :=
  [ {| round_event := round_b; RoundNumber := 9 |};
    {| round_event := round_a; RoundNumber := 10 |};
    {| round_event := round_c; RoundNumber := 11 |} ].

Definition season_service (year : Z) : Res (list Round) := Ok season.

Definition results_service (year round : Z) : Res DataFrame := Ok race_results.


Definition text_results_service (year round : Z) : Res DataFrame := Ok text_results.

(** A results table with its columns and no row. *)
Definition empty_results : DataFrame :=
  {| columns := ["Position"; "TeamName"; "Abbreviation"]; data := [] |}.

Definition empty_results_service (year round : Z) : Res DataFrame := Ok empty_results.

Definition silverstone : event :=
  EventDict {[ "EventName" := SStr "British Grand Prix";
               "Location" := SStr "Silverstone" ]}.

(** A table whose name fields are there and hold nothing, beside an
    identifier and an abbreviation. *)
Definition nameless_results : DataFrame :=
  {| columns := ["Position"; "TeamName"; "GivenName"; "FamilyName"; "Driver";
                 "Abbreviation"];
     data := [ [float_of_Z 1; SStr "Red Bull Racing"; SNone; SFloat FNaN;
                SStr "verstappen"; SStr "VER"] ] |}.


(** A name holding two circuit names of the table, the later one first. *)
Definition monza_or_monaco : event :=
  EventDict {[ "EventName" := SStr "monza or MONACO"; "Location" := SStr "Monza" ]}.

(** * Properties *)

(** ** The error monad *)

(** One step of a computation in [Res]: reduce the bind at its head. *)
Ltac res_step := cbn [mbind Res_bind].

Lemma bind_Ok {A B} (m : Res A) (f : A → Res B) (b : B) :
  m ≫= f = Ok b → ∃ a, m = Ok a ∧ f a = Ok b.
Proof. destruct m as [a|e]; [eauto | discriminate]. Qed.

Lemma fmap_Ok {A B} (f : A → B) (m : Res A) (b : B) :
  f <$> m = Ok b → ∃ a, m = Ok a ∧ b = f a.
Proof. destruct m as [a|e]; [intros [= <-]; eauto | discriminate]. Qed.

(** ** Drawing without replacement *)

Lemma randbelow_lt (n : nat) (g : rng) : (0 < n)%nat → (fst (random.randbelow n g) < n)%nat.
Proof. intros Hn. simpl. apply Nat.mod_upper_bound. lia. Qed.

Lemma index_lt {A} (seq : list A) (i : nat) :
  (i < length seq)%nat → ∃ x, random.index seq i = Ok x ∧ seq !! i = Some x.
Proof.
  intros Hi. destruct (lookup_lt_is_Some_2 seq i Hi) as [x Hx].
  exists x. unfold random.index. by rewrite Hx.
Qed.

Lemma insert_swap_perm {A} (l : list A) (j : nat) (x y : A) :
  l !! j = Some x → x :: <[j:=y]> l ≡ₚ y :: l.
Proof.
  revert j. induction l as [|a l IH]; intros [|j] Hx; simplify_eq/=.
  - apply perm_swap.
  - rewrite perm_swap, (IH j Hx). apply perm_swap.
Qed.

(** Refilling the drawn slot with the last live element keeps, in the
    shortened live part, exactly the elements that were not drawn. *)
Lemma refill_live {A} (pool : list A) (j m : nat) (x y : A) :
  (j ≤ m)%nat → pool !! j = Some x → pool !! m = Some y →
  x :: take m (<[j:=y]> pool) ≡ₚ take (S m) pool.
Proof.
  intros Hj Hx Hy.
  rewrite (take_S_r pool m y Hy).
  destruct (decide (j = m)) as [->|Hne].
  - rewrite take_insert_ge by lia.
    assert (x = y) as -> by congruence.
    apply Permutation_cons_append.
  - rewrite take_insert_lt by lia.
    rewrite (insert_swap_perm (take m pool) j x y).
    + apply Permutation_cons_append.
    + rewrite lookup_take_lt; [done | lia].
Qed.

Lemma sample_loop_S {A} (k : nat) (pool : list A) (live : nat) (g : rng) :
  random.sample_loop (S k) pool live g =
    (x ← random.index pool (fst (random.randbelow live g));
     y ← random.index pool (live - 1)%nat;
     '(rest, g2) ← random.sample_loop k (<[fst (random.randbelow live g):=y]> pool)
                     (live - 1)%nat (snd (random.randbelow live g));
     Ok (x :: rest, g2)).
Proof. reflexivity. Qed.

Lemma sample_loop_spec {A} (k : nat) : ∀ (pool : list A) (live : nat) (g : rng),
  (k ≤ live)%nat → (live ≤ length pool)%nat →
  ∃ res g' rest, random.sample_loop k pool live g = Ok (res, g')
    ∧ length res = k ∧ res ++ rest ≡ₚ take live pool.
Proof.
  induction k as [|k IH]; intros pool live g Hk Hlive.
  - exists [], g, (take live pool). simpl. auto.
  - destruct live as [|m]; [lia|].
    pose proof (randbelow_lt (S m) g ltac:(lia)) as Hj.
    rewrite sample_loop_S.
    destruct (random.randbelow (S m) g) as [j g1] eqn:Hr. simpl in Hj. simpl fst; simpl snd.
    destruct (index_lt pool j ltac:(lia)) as (x & Hix & Hx).
    destruct (index_lt pool (S m - 1) ltac:(lia)) as (y & Hiy & Hy).
    replace (S m - 1)%nat with m in * by lia.
    rewrite Hix, Hiy. res_step.
    destruct (IH (<[j:=y]> pool) m g1 ltac:(lia)
                ltac:(rewrite length_insert; lia))
      as (res & g' & rest & Hloop & Hlen & Hperm).
    rewrite Hloop. res_step.
    exists (x :: res), g', rest. split; [done|]. split; [simpl; lia|].
    simpl. rewrite Hperm. apply refill_live; [lia | done | done].
Qed.

(** [random.sample] returns [k] entries of the population, none of them taken
    twice: the result is a sub-multiset of the population. *)
Lemma sample_spec {A} (population : list A) (k : nat) (g : rng) :
  (k ≤ length population)%nat →
  ∃ res g', random.sample population k g = Ok (res, g')
    ∧ length res = k ∧ res ⊆+ population.
Proof.
  intros Hk. unfold random.sample.
  destruct (Nat.leb_spec k (length population)) as [_|?]; [|lia].
  destruct (sample_loop_spec k population (length population) g Hk (le_n _))
    as (res & g' & rest & Hloop & Hlen & Hperm).
  exists res, g'. split; [done|]. split; [done|].
  rewrite firstn_all in Hperm. rewrite <- Hperm.
  apply submseteq_inserts_r. done.
Qed.

Lemma choice_spec {A} (seq : list A) (g : rng) :
  seq ≠ [] → ∃ x g', random.choice seq g = Ok (x, g') ∧ x ∈ seq.
Proof.
  intros Hne. unfold random.choice.
  assert (Hlen : (0 < length seq)%nat) by (destruct seq; simpl; [done | lia]).
  pose proof (randbelow_lt (length seq) g Hlen) as Hj.
  destruct (random.randbelow (length seq) g) as [j g1]. simpl in Hj.
  destruct (index_lt seq j Hj) as (x & Hix & Hx).
  rewrite Hix. simpl. exists x, g1. split; [done|].
  by apply list_elem_of_lookup_2 with j.
Qed.

(** ** The event and the tidbit *)

Lemma tidbit_loop_text (table : list (string * string)) (n tidbit : string) :
  tidbit_loop table (SStr n) tidbit =
    Ok (match List.find (λ entry, contains (lower_of_str (fst entry))
                                     (lower_of_str n)) table with
        | Some entry => snd entry
        | None => tidbit
        end).
Proof.
  induction table as [|[key text] table IH]; [reflexivity|].
  simpl. destruct (contains (lower_of_str key) (lower_of_str n));
    [reflexivity | exact IH].
Qed.

Lemma describe_event_fields (event_info : option event) en el tb :
  describe_event event_info = Ok (en, el, tb) →
  en = event_name_of event_info ∧ el = event_location_of event_info.
Proof.
  unfold describe_event, event_name_of, event_location_of.
  destruct event_info as [ev|]; [|by intros [= <- <- <-]].
  destruct (event_fields ev) as [n l]. intros H.
  apply bind_Ok in H as (t & _ & [= <- <- <-]). done.
Qed.

Lemma describe_event_usable (event_info : option event) :
  event_name_usable event_info →
  ∃ tb, describe_event event_info
        = Ok (event_name_of event_info, event_location_of event_info, tb).
Proof.
  unfold event_name_usable, describe_event, event_name_of, event_location_of.
  destruct event_info as [ev|]; [|by eauto].
  destruct (event_fields ev) as [n l]. cbn [fst snd]. intros [Hf | [s ->]].
  - rewrite Hf. res_step. eauto.
  - destruct (truthy (SStr s)); [|res_step; eauto].
    rewrite tidbit_loop_text. res_step. eauto.
Qed.

Lemma describe_event_returns (event_info : option event) en el tb :
  describe_event event_info = Ok (en, el, tb) → event_name_usable event_info.
Proof.
  unfold event_name_usable, describe_event, event_name_of.
  destruct event_info as [ev|]; [|by left].
  destruct (event_fields ev) as [n l]. cbn [fst snd].
  destruct (truthy n) eqn:Ht; [|by left].
  destruct n; try discriminate; eauto.
Qed.

Lemma find_agree {A} (f f' : A → bool) (l : list A) :
  Forall (λ x, f x = f' x) l → List.find f l = List.find f' l.
Proof.
  induction 1 as [|x l Hx _ IH]; [done|]. simpl. rewrite Hx.
  by destruct (f' x).
Qed.

Lemma circuit_names_latin1 :
  Forall (λ entry, latin1_text (fst entry) = true) CIRCUIT_TIDBITS.
Proof.
  repeat (apply Forall_cons; split; [vm_compute; reflexivity|]).
  apply Forall_nil. exact I.
Qed.

(** For a name of Latin-1 text the tidbit is the one [lower] computes. *)
Lemma tidbit_by_match_latin1 (n : string) :
  latin1_text n = true → tidbit_by_match n = tidbit_latin1 n.
Proof.
  intros Hn. unfold tidbit_by_match, tidbit_latin1.
  rewrite (find_agree _ (λ entry, contains (lower (fst entry)) (lower n))); [done|].
  eapply Forall_impl; [exact circuit_names_latin1|].
  intros entry Hkey. simpl. by rewrite !lower_of_str_latin1.
Qed.

Lemma tidbit_by_match_empty : tidbit_by_match "" = DEFAULT_TIDBIT.
Proof. by rewrite tidbit_by_match_latin1. Qed.

Lemma describe_event_text (event_info : option event) (n : string) :
  event_name_of event_info = SStr n →
  describe_event event_info
  = Ok (SStr n, event_location_of event_info, tidbit_by_match n).
Proof.
  unfold describe_event, event_name_of, event_location_of.
  destruct event_info as [ev|]; [|discriminate].
  destruct (event_fields ev) as [en l]. cbn [fst snd]. intros ->.
  cbn [truthy]. destruct (String.eqb_spec n "") as [->|Hne]; cbn [negb].
  - by rewrite tidbit_by_match_empty.
  - rewrite tidbit_loop_text. reflexivity.
Qed.

(** ** The run of the engine *)

Lemma choice_or_none_spec (pool : list Driver) (g : rng) :
  ∃ v g', choice_or_none pool g = Ok (v, g') ∧ drawn_from pool v.
Proof.
  destruct pool as [|d0 pool]; [by exists (VScalar SNone), g|].
  destruct (choice_spec (d0 :: pool) g ltac:(done)) as (d & g' & Hc & Hin).
  exists (VDriver d), g'. unfold choice_or_none. rewrite Hc. simpl.
  split; [done|]. by exists d.
Qed.

Lemma run_unfold (df : DataFrame) (event_info : option event) (g : rng) :
  df_empty df = false →
  generate_prediction_run (Some df) event_info g =
    (drivers ← collect_drivers (iterrows df);
     let pools := make_pools drivers in
     '(podium_favorites, g1) ←
        random.sample (top_contenders pools) (3 `min` length (top_contenders pools))%nat g;
     '(dark_horse, g2) ← choice_or_none (midfield_strong pools) g1;
     '(potential_surprise, g3) ← choice_or_none (midfield_pack pools) g2;
     '(event_name, event_location, tidbit) ← describe_event event_info;
     Ok (Some pools,
         make_prediction event_name event_location tidbit
           podium_favorites dark_horse potential_surprise)).
Proof. intros He. unfold generate_prediction_run. rewrite He. reflexivity. Qed.

(** The random part of a run never raises, whatever the draws. *)
Lemma selection_spec (drivers : list Driver) (g : rng) :
  let pools := make_pools drivers in
  ∃ podium g1 dh g2 ps g3,
    random.sample (top_contenders pools) (3 `min` length (top_contenders pools))%nat g
      = Ok (podium, g1)
    ∧ choice_or_none (midfield_strong pools) g1 = Ok (dh, g2)
    ∧ choice_or_none (midfield_pack pools) g2 = Ok (ps, g3)
    ∧ length podium = (3 `min` length (top_contenders pools))%nat
    ∧ podium ⊆+ top_contenders pools
    ∧ drawn_from (midfield_strong pools) dh
    ∧ drawn_from (midfield_pack pools) ps.
Proof.
  intros pools.
  destruct (sample_spec (top_contenders pools)
              (3 `min` length (top_contenders pools))%nat g ltac:(lia))
    as (podium & g1 & Hs & Hlen & Hsub).
  destruct (choice_or_none_spec (midfield_strong pools) g1) as (dh & g2 & Hd & Hdh).
  destruct (choice_or_none_spec (midfield_pack pools) g2) as (ps & g3 & Hp & Hps).
  exists podium, g1, dh, g2, ps, g3. done.
Qed.

Lemma run_success (df : DataFrame) (event_info : option event) (g : rng)
    (drivers : list Driver) en el tb :
  df_empty df = false →
  collect_drivers (iterrows df) = Ok drivers →
  describe_event event_info = Ok (en, el, tb) →
  ∃ podium dh ps,
    generate_prediction_run (Some df) event_info g
      = Ok (Some (make_pools drivers), make_prediction en el tb podium dh ps)
    ∧ length podium = (3 `min` length (top_contenders (make_pools drivers)))%nat
    ∧ podium ⊆+ top_contenders (make_pools drivers)
    ∧ drawn_from (midfield_strong (make_pools drivers)) dh
    ∧ drawn_from (midfield_pack (make_pools drivers)) ps.
Proof.
  intros He Hc Hd. rewrite (run_unfold _ _ _ He), Hc.
  destruct (selection_spec drivers g)
    as (podium & g1 & dh & g2 & ps & g3 & Hs & Hdh & Hps & Hlen & Hsub & H1 & H2).
  exists podium, dh, ps. res_step. cbv zeta.
  rewrite Hs. res_step. rewrite Hdh. res_step.
  rewrite Hps. res_step. rewrite Hd. res_step.
  done.
Qed.

Lemma run_returns (df : DataFrame) (event_info : option event) (g : rng) p r :
  df_empty df = false →
  generate_prediction_run (Some df) event_info g = Ok (p, r) →
  ∃ drivers en el tb,
    collect_drivers (iterrows df) = Ok drivers
    ∧ describe_event event_info = Ok (en, el, tb).
Proof.
  intros He. rewrite (run_unfold _ _ _ He).
  destruct (collect_drivers (iterrows df)) as [drivers|e]; [|discriminate].
  destruct (selection_spec drivers g)
    as (podium & g1 & dh & g2 & ps & g3 & Hs & Hdh & Hps & _).
  res_step. cbv zeta.
  rewrite Hs. res_step. rewrite Hdh. res_step.
  rewrite Hps. res_step.
  destruct (describe_event event_info) as [[[en el] tb]|e]; [|discriminate].
  intros _. by exists drivers, en, el, tb.
Qed.

(** A sub-multiset of a list is read off pairwise distinct slots of it. *)
Lemma sublist_slots {A} (l k : list A) :
  l `sublist_of` k →
  ∃ slots, NoDup slots ∧ Forall2 (λ i x, k !! i = Some x) slots l.
Proof.
  induction 1 as [|x l k _ (slots & Hnd & Hf)|x l k _ (slots & Hnd & Hf)].
  - exists []. split; constructor.
  - exists (O :: (S <$> slots)). split.
    + constructor; [|by apply (NoDup_fmap_2 S)].
      intros (? & ? & _)%list_elem_of_fmap. done.
    + constructor; [done|]. by apply Forall2_fmap_l.
  - exists (S <$> slots). split; [by apply (NoDup_fmap_2 S)|].
    by apply Forall2_fmap_l.
Qed.

Lemma submseteq_slots {A} (l k : list A) :
  l ⊆+ k →
  ∃ slots, NoDup slots ∧ Forall2 (λ i x, k !! i = Some x) slots l.
Proof.
  intros (l' & Hperm & Hsub)%submseteq_sublist_r.
  destruct (sublist_slots l' k Hsub) as (slots' & Hnd & Hf).
  apply Forall2_flip in Hf.
  destruct (Permutation_Forall2 (symmetry Hperm) Hf) as (slots & Hp & Hf').
  exists slots. split; [by rewrite <- Hp | by apply Forall2_flip].
Qed.

Lemma submseteq_NoDup_l {A} (l k : list A) : l ⊆+ k → NoDup k → NoDup l.
Proof.
  intros Hsub Hk. apply submseteq_Permutation in Hsub as [k' Hk'].
  rewrite Hk' in Hk. by apply NoDup_app in Hk as [? _].
Qed.

Lemma generate_prediction_of_run standings event_info g p r :
  generate_prediction_run standings event_info g = Ok (p, r) →
  generate_prediction standings event_info g = Ok r.
Proof. unfold generate_prediction. by intros ->. Qed.

Lemma df_empty_true (df : DataFrame) :
  df_empty df = true ↔ columns df = [] ∨ data df = [].
Proof.
  unfold df_empty. destruct (columns df), (data df); split; intros H; try done;
    auto; by destruct H.
Qed.

(** ** The early return *)

(** C1.  When the standings are [None] or an empty table (no rows, or no
    columns), [generate_prediction] returns the dict whose only entry is
    [error], with the fixed message, whatever the event and the draws. *)
Theorem generate_prediction_no_standings
    (standings : option DataFrame) (event_info : option event) (g : rng) :
  standings = None
  ∨ (∃ df, standings = Some df ∧ (columns df = [] ∨ data df = [])) →
  generate_prediction standings event_info g
  = Ok {[ "error" :=
            VScalar (SStr "Cannot generate prediction without driver standings.") ]}.
Proof.
  intros [-> | (df & -> & Hempty)]; [reflexivity|].
  apply df_empty_true in Hempty.
  unfold generate_prediction, generate_prediction_run. by rewrite Hempty.
Qed.

(** ** The selections *)

Lemma lookup_podium en el tb podium dh ps :
  make_prediction en el tb podium dh ps !! "podium_favorites" = Some (VDrivers podium).
Proof. reflexivity. Qed.

Lemma lookup_dark_horse en el tb podium dh ps :
  make_prediction en el tb podium dh ps !! "dark_horse" = Some dh.
Proof. reflexivity. Qed.

Lemma lookup_potential_surprise en el tb podium dh ps :
  make_prediction en el tb podium dh ps !! "potential_surprise" = Some ps.
Proof. reflexivity. Qed.

(** C2.  Once the candidate list is built, the run returns a dict whose
    [podium_favorites] holds entries of the top pool (position at most 5)
    read off pairwise distinct slots of it, so no candidate is taken twice:
    three of them when the pool has at least three, the whole pool in some
    order when it has fewer; no exception is raised. *)
Theorem podium_favorites_from_top_pool
    (df : DataFrame) (event_info : option event) (g : rng) (drivers : list Driver) :
  df_empty df = false →
  collect_drivers (iterrows df) = Ok drivers →
  event_name_usable event_info →
  let top := filter (λ d, position d ≤ 5) drivers in
  ∃ r podium,
    generate_prediction (Some df) event_info g = Ok r
    ∧ r !! "podium_favorites" = Some (VDrivers podium)
    ∧ podium ⊆+ top
    ∧ (∃ slots, NoDup slots ∧ Forall2 (λ i d, top !! i = Some d) slots podium)
    ∧ Forall (λ d, position d ≤ 5) podium
    ∧ (NoDup top → NoDup podium)
    ∧ ((3 ≤ length top)%nat → length podium = 3%nat)
    ∧ ((length top < 3)%nat → length podium = length top ∧ podium ≡ₚ top).
Proof.
  intros He Hc Hev top.
  destruct (describe_event_usable _ Hev) as [tb Hd].
  destruct (run_success df event_info g drivers _ _ _ He Hc Hd)
    as (podium & dh & ps & Hrun & Hlen & Hsub & _ & _).
  change (top_contenders (make_pools drivers)) with top in *.
  eexists _, podium. split; [exact (generate_prediction_of_run _ _ _ _ _ Hrun)|].
  split; [apply lookup_podium|]. split; [done|].
  split; [by apply submseteq_slots|].
  split; [|split; [|split]].
  - apply Forall_forall. intros d Hin.
    pose proof (elem_of_submseteq _ _ _ Hin Hsub) as Htop.
    by apply list_elem_of_filter in Htop as [? _].
  - by apply submseteq_NoDup_l.
  - lia.
  - intros Hlt. split; [lia|].
    apply submseteq_length_Permutation; [done | lia].
Qed.

Lemma drawn_from_filter (P : Driver → Prop) `{∀ d, Decision (P d)}
    (drivers : list Driver) (v : value) :
  drawn_from (filter P drivers) v →
  (filter P drivers = [] ∧ v = VScalar SNone
   ∨ ∃ d, v = VDriver d ∧ d ∈ filter P drivers ∧ P d)
  ∧ (v = VScalar SNone ↔ filter P drivers = []).
Proof.
  unfold drawn_from. destruct (filter P drivers) as [|d0 pool] eqn:Hpool.
  - intros ->. split; [by left | done].
  - intros (d & -> & Hin). split; [|done].
    right. exists d. split; [done|]. split; [done|].
    rewrite <- Hpool in Hin. by apply list_elem_of_filter in Hin as [? _].
Qed.

(** C3.  Once the candidate list is built, the returned [dark_horse] is
    [None] or a driver of the mid pool, so with position from 4 to 8, and
    [potential_surprise] is [None] or a driver of the low pool, position
    from 9 to 15; each is [None] exactly when its pool is empty. *)
Theorem dark_horse_and_surprise_from_pools
    (df : DataFrame) (event_info : option event) (g : rng) (drivers : list Driver) :
  df_empty df = false →
  collect_drivers (iterrows df) = Ok drivers →
  event_name_usable event_info →
  let mid := filter (λ d, 4 ≤ position d ≤ 8) drivers in
  let low := filter (λ d, 9 ≤ position d ≤ 15) drivers in
  ∃ r dh ps,
    generate_prediction (Some df) event_info g = Ok r
    ∧ r !! "dark_horse" = Some dh
    ∧ r !! "potential_surprise" = Some ps
    ∧ (mid = [] ∧ dh = VScalar SNone
       ∨ ∃ d, dh = VDriver d ∧ d ∈ mid ∧ 4 ≤ position d ≤ 8)
    ∧ (dh = VScalar SNone ↔ mid = [])
    ∧ (low = [] ∧ ps = VScalar SNone
       ∨ ∃ d, ps = VDriver d ∧ d ∈ low ∧ 9 ≤ position d ≤ 15)
    ∧ (ps = VScalar SNone ↔ low = []).
Proof.
  intros He Hc Hev mid low.
  destruct (describe_event_usable _ Hev) as [tb Hd].
  destruct (run_success df event_info g drivers _ _ _ He Hc Hd)
    as (podium & dh & ps & Hrun & _ & _ & Hdh & Hps).
  eexists _, dh, ps. split; [exact (generate_prediction_of_run _ _ _ _ _ Hrun)|].
  split; [apply lookup_dark_horse|]. split; [apply lookup_potential_surprise|].
  apply drawn_from_filter in Hdh as [? ?]. apply drawn_from_filter in Hps as [? ?].
  done.
Qed.

(** ** The candidate list *)

Lemma driver_name_preferred (row : Series) :
  driver_name row = Ok (preferred_name row).
Proof.
  unfold driver_name, preferred_name, series_contains, series_getitem, series_get.
  destruct (series_find row "GivenName") as [given|];
    destruct (series_find row "FamilyName") as [family|];
    destruct (series_find row "Driver") as [ident|];
    destruct (series_find row "Abbreviation") as [abbr|]; reflexivity.
Qed.

Lemma driver_of_row_returns (row : Series) (candidate : option Driver) :
  driver_of_row row = Ok candidate →
  match candidate with
  | None => row_kept row = false
  | Some d =>
      row_kept row = true
      ∧ name d = preferred_name row
      ∧ (∃ pos, series_find row "Position" = Some pos ∧ py_int pos = Ok (position d))
      ∧ series_find row "TeamName" = Some (constructor d)
  end.
Proof.
  unfold driver_of_row, row_kept, series_getitem.
  destruct (series_find row "Position") as [pos|]; [|discriminate].
  res_step. destruct (isna pos); [by intros [= <-]|].
  rewrite driver_name_preferred. res_step.
  destruct (py_int pos) as [p|] eqn:Hint; [|discriminate]. res_step.
  destruct (series_find row "TeamName") as [team|]; [|discriminate].
  res_step. intros [= <-]. simpl.
  split; [done|]. split; [done|]. split; [by exists pos | done].
Qed.


Lemma collect_drivers_cons (row : Series) (rows : list Series) :
  collect_drivers (row :: rows) =
    (candidate ← driver_of_row row;
     drivers ← collect_drivers rows;
     Ok (match candidate with
         | Some d => d :: drivers
         | None => drivers
         end)).
Proof. reflexivity. Qed.

Lemma collect_drivers_returns (rows : list Series) : ∀ drivers : list Driver,
  collect_drivers rows = Ok drivers →
  Forall2 (λ row d, driver_of_row row = Ok (Some d)) (List.filter row_kept rows) drivers.
Proof.
  induction rows as [|row rows IH]; intros drivers H.
  - injection H as <-. constructor.
  - rewrite collect_drivers_cons in H.
    apply bind_Ok in H as (candidate & Hrow & H).
    apply bind_Ok in H as (rest & Hrest & [= <-]).
    pose proof (driver_of_row_returns _ _ Hrow) as Hk.
    simpl. destruct candidate as [d|].
    + destruct Hk as [-> _]. constructor; [done | by apply IH].
    + rewrite Hk. by apply IH.
Qed.



Lemma dom_make_prediction en el tb podium dh ps :
  dom (make_prediction en el tb podium dh ps) = PREDICTION_KEYS.
Proof.
  unfold make_prediction, PREDICTION_KEYS.
  rewrite !dom_insert_L, dom_singleton_L. set_solver.
Qed.


(** C6, as the code has it.  Every candidate comes from a kept row, and its
    name follows the preference order on the labels the row has, whatever
    the cells hold: given and family name, each rendered as text, when the
    row has both labels; else the cell under [Driver]; else the text of the
    cell under [Abbreviation]; else ["Unknown"].  A row with both name
    labels never takes its identifier or its abbreviation. *)
Theorem driver_name_preference_order (rows : list Series) (drivers : list Driver) :
  Forall (λ row, NoDup (fst <$> row)) rows →
  collect_drivers rows = Ok drivers →
  Forall2 (λ row d,
             (∀ given family,
                series_find row "GivenName" = Some given →
                series_find row "FamilyName" = Some family →
                name d = SStr (py_str given +:+ " " +:+ py_str family))
             ∧ (series_find row "GivenName" = None
                ∨ series_find row "FamilyName" = None →
                (∀ ident, series_find row "Driver" = Some ident → name d = ident)
                ∧ (series_find row "Driver" = None →
                   (∀ abbr, series_find row "Abbreviation" = Some abbr →
                            name d = SStr (py_str abbr))
                   ∧ (series_find row "Abbreviation" = None →
                      name d = SStr "Unknown"))))
    (List.filter row_kept rows) drivers.
Proof.
  intros _ Hc. apply collect_drivers_returns in Hc.
  eapply Forall2_impl; [exact Hc|].
  intros row d Hrow. apply driver_of_row_returns in Hrow as (_ & Hname & _).
  rewrite Hname. unfold preferred_name. split.
  - intros given family Hg Hf. by rewrite Hg, Hf.
  - intros Hmissing.
    assert (∀ v : scalar,
              match series_find row "GivenName", series_find row "FamilyName" with
              | Some given, Some family =>
                  SStr (py_str given +:+ " " +:+ py_str family)
              | _, _ => v
              end = v) as Hskip.
    { intros v. destruct Hmissing as [-> | Hf]; [done|]. rewrite Hf.
      by destruct (series_find row "GivenName"). }
    rewrite Hskip. split.
    + by intros ident ->.
    + intros ->. split; [by intros abbr -> | by intros ->].
Qed.

(** ** Substrings *)





(** *** Letter case *)









(** ** The event's name and location *)

Lemma field_absent_name (event_info : option event) :
  field_absent event_info "EventName" → event_name_of event_info = SNone.
Proof.
  destruct event_info as [[items|attrs]|]; simpl; [| |done];
    unfold dict_get, getattr; by intros ->.
Qed.

Lemma field_absent_location (event_info : option event) :
  field_absent event_info "Location" → event_location_of event_info = SNone.
Proof.
  destruct event_info as [[items|attrs]|]; simpl; [| |done];
    unfold dict_get, getattr; by intros ->.
Qed.

(** C7.  When the descriptor is absent or has no [EventName], the returned
    [event_name] is "Unknown Event"; when it is absent or has no
    [Location], the returned [location] is "Unknown Location"; a dict and
    an object read by attribute behave alike. *)
Theorem unknown_event_and_location
    (df : DataFrame) (event_info : option event) (g : rng) (drivers : list Driver) :
  df_empty df = false →
  collect_drivers (iterrows df) = Ok drivers →
  event_name_usable event_info →
  ∃ r,
    generate_prediction (Some df) event_info g = Ok r
    ∧ (field_absent event_info "EventName" →
       r !! "event_name" = Some (VScalar (SStr "Unknown Event")))
    ∧ (field_absent event_info "Location" →
       r !! "location" = Some (VScalar (SStr "Unknown Location"))).
Proof.
  intros He Hc Hev.
  destruct (describe_event_usable _ Hev) as [tb Hd].
  destruct (run_success df event_info g drivers _ _ _ He Hc Hd)
    as (podium & dh & ps & Hrun & _).
  eexists. split; [exact (generate_prediction_of_run _ _ _ _ _ Hrun)|].
  split; intros Habs.
  - rewrite (field_absent_name _ Habs). reflexivity.
  - rewrite (field_absent_location _ Habs). reflexivity.
Qed.

(** ** The schedule lookup *)

Lemma get_next_gp_fetched get_event_by_name now gp_name_query schedule :
  get_next_gp (Ok schedule) get_event_by_name now gp_name_query =
    match filter (λ e, now ≤ EventDate e) schedule with
    | [] => (None, Some "No upcoming races found for the rest of the season.")
    | first :: _ =>
        match query_given gp_name_query with
        | Some q =>
            match get_event_by_name schedule q with
            | Ok (Some e) =>
                if bool_decide (now ≤ EventDate e) then (Some e, None)
                else (None, Some (not_found_message q))
            | Ok None => (None, Some (not_found_message q))
            | Raise ex =>
                (None, Some ("Network error getting race schedule: " +:+ exn_str ex))
            end
        | None => (Some first, None)
        end
    end.
Proof.
  unfold get_next_gp. res_step.
  destruct (filter _ schedule) as [|first rest]; [done|].
  destruct (query_given gp_name_query) as [q|]; [|done].
  destruct (get_event_by_name schedule q) as [[e|]|ex]; res_step; [|done|done].
  by destruct (bool_decide (now ≤ EventDate e)).
Qed.

(** In a schedule listed by date, the first event from [now] on is the
    earliest of them. *)
Lemma first_future_is_earliest (now : Z) (schedule : list Event) :
  sorted_by_date schedule →
  ∀ first rest,
    filter (λ e, now ≤ EventDate e) schedule = first :: rest →
    first ∈ schedule ∧ now ≤ EventDate first
    ∧ ∀ e, e ∈ schedule → now ≤ EventDate e → EventDate first ≤ EventDate e.
Proof.
  induction 1 as [|a l Hsorted IH Hall]; intros first rest Hf; [done|].
  rewrite filter_cons in Hf. destruct (decide (now ≤ EventDate a)) as [Ha|Ha].
  - injection Hf as <- _. split; [left|]. split; [done|].
    intros e [->|Hin]%elem_of_cons _; [lia|].
    rewrite List.Forall_forall in Hall. apply Hall. by apply list_elem_of_In.
  - destruct (IH first rest Hf) as (Hin & Hnow & Hmin).
    split; [by right|]. split; [done|].
    intros e [->|He]%elem_of_cons Hfut; [lia | by apply Hmin].
Qed.

(** C8, as the code has it.  Without a name query, and on a schedule listed
    by date, [get_next_gp] returns the earliest event dated [now] or later;
    with a query it returns an event only when the schedule's search found
    it and it is dated [now] or later; in every other case it returns no
    event and one of three messages, which differ from one another. *)
Theorem get_next_gp_contract
    (get_event_schedule : Res (list Event))
    (get_event_by_name : list Event → string → Res (option Event))
    (now : Z) (gp_name_query : option string) :
  let result := get_next_gp get_event_schedule get_event_by_name now gp_name_query in
  (∀ schedule e0,
     get_event_schedule = Ok schedule →
     query_given gp_name_query = None →
     sorted_by_date schedule →
     e0 ∈ schedule → now ≤ EventDate e0 →
     ∃ e, result = (Some e, None)
          ∧ e ∈ schedule ∧ now ≤ EventDate e
          ∧ ∀ e', e' ∈ schedule → now ≤ EventDate e' → EventDate e ≤ EventDate e')
  ∧ (∀ q e,
       query_given gp_name_query = Some q →
       result = (Some e, None) →
       ∃ schedule,
         get_event_schedule = Ok schedule
         ∧ get_event_by_name schedule q = Ok (Some e)
         ∧ now ≤ EventDate e)
  ∧ (∀ q e schedule e0,
       query_given gp_name_query = Some q →
       get_event_schedule = Ok schedule →
       e0 ∈ schedule → now ≤ EventDate e0 →
       get_event_by_name schedule q = Ok (Some e) →
       now ≤ EventDate e →
       result = (Some e, None))
  ∧ ((∃ e, result = (Some e, None))
     ∨ (∃ msg, result = (None, Some msg)
        ∧ (msg = "No upcoming races found for the rest of the season."
           ∨ (∃ q, query_given gp_name_query = Some q
                   ∧ msg = "Could not find a future Grand Prix matching '" +:+ q +:+ "'.")
           ∨ (∃ ex, msg = "Network error getting race schedule: " +:+ exn_str ex))))
  ∧ (∀ q ex,
       "No upcoming races found for the rest of the season."
         ≠ "Could not find a future Grand Prix matching '" +:+ q +:+ "'."
       ∧ "No upcoming races found for the rest of the season."
         ≠ "Network error getting race schedule: " +:+ exn_str ex
       ∧ "Could not find a future Grand Prix matching '" +:+ q +:+ "'."
         ≠ "Network error getting race schedule: " +:+ exn_str ex).
Proof.
  intros result. subst result.
  split; [|split; [|split; [|split]]].
  - intros schedule e0 -> Hq Hsorted Hin Hfut.
    rewrite get_next_gp_fetched, Hq.
    destruct (filter (λ e, now ≤ EventDate e) schedule) as [|first rest] eqn:Hf.
    + assert (e0 ∈ filter (λ e, now ≤ EventDate e) schedule) as Hin'
        by (by apply list_elem_of_filter).
      rewrite Hf in Hin'. by apply elem_of_nil in Hin'.
    + exists first. split; [done|].
      by apply (first_future_is_earliest now schedule Hsorted first rest).
  - intros q e Hq.
    destruct get_event_schedule as [schedule|ex]; [|discriminate].
    rewrite get_next_gp_fetched, Hq.
    destruct (filter _ schedule) as [|first rest]; [discriminate|].
    destruct (get_event_by_name schedule q) as [[e'|]|ex] eqn:Hfound;
      try discriminate.
    destruct (bool_decide_reflect (now ≤ EventDate e')); [|discriminate].
    intros [= ->]. by exists schedule.
  - intros q e schedule e0 Hq -> Hin Hfut Hfound Hnow.
    rewrite get_next_gp_fetched, Hq, Hfound.
    destruct (filter (λ e, now ≤ EventDate e) schedule) as [|first rest] eqn:Hf.
    + assert (e0 ∈ filter (λ e, now ≤ EventDate e) schedule) as Hin'
        by (by apply list_elem_of_filter).
      rewrite Hf in Hin'. by apply elem_of_nil in Hin'.
    + by rewrite bool_decide_eq_true_2.
  - destruct get_event_schedule as [schedule|ex].
    + rewrite get_next_gp_fetched.
      destruct (filter _ schedule) as [|first rest]; [right; eauto|].
      destruct (query_given gp_name_query) as [q|]; [|left; eauto].
      destruct (get_event_by_name schedule q) as [[e'|]|ex].
      * destruct (bool_decide (now ≤ EventDate e')); [left; eauto|].
        right. eexists. split; [done|]. right. left. by exists q.
      * right. eexists. split; [done|]. right. left. by exists q.
      * right. eexists. split; [done|]. right. right. by exists ex.
    + right. eexists. split; [reflexivity|]. right. right. by exists ex.
  - intros q ex. repeat split; discriminate.
Qed.

(** ** Pools and draws *)

Lemma run_event_raises (df : DataFrame) (event_info : option event) (g : rng)
    (drivers : list Driver) (e : exn) :
  df_empty df = false →
  collect_drivers (iterrows df) = Ok drivers →
  describe_event event_info = Raise e →
  generate_prediction_run (Some df) event_info g = Raise e.
Proof.
  intros He Hc Hd. rewrite (run_unfold _ _ _ He), Hc.
  destruct (selection_spec drivers g)
    as (podium & g1 & dh & g2 & ps & g3 & Hs & Hdh & Hps & _).
  res_step. cbv zeta.
  rewrite Hs. res_step. rewrite Hdh. res_step.
  rewrite Hps. res_step. by rewrite Hd.
Qed.

Lemma run_pools_fixed (standings : option DataFrame) (event_info : option event)
    (g1 g2 : rng) :
  fst <$> generate_prediction_run standings event_info g1
  = fst <$> generate_prediction_run standings event_info g2.
Proof.
  destruct standings as [df|]; [|reflexivity].
  destruct (df_empty df) eqn:He.
  { unfold generate_prediction_run. by rewrite He. }
  destruct (collect_drivers (iterrows df)) as [drivers|e] eqn:Hc.
  2: { rewrite !(run_unfold _ _ _ He), Hc. reflexivity. }
  destruct (describe_event event_info) as [[[en el] tb]|e] eqn:Hd.
  - destruct (run_success df event_info g1 drivers _ _ _ He Hc Hd)
      as (? & ? & ? & -> & _).
    destruct (run_success df event_info g2 drivers _ _ _ He Hc Hd)
      as (? & ? & ? & -> & _).
    reflexivity.
  - by rewrite !(run_event_raises df event_info _ drivers e He Hc Hd).
Qed.

(** C9.  The candidate pools of a run are fixed by the standings alone:
    two runs on the same inputs build the same three pools (positions up to
    5, from 4 to 8, from 9 to 15) whatever the draws, while the selections
    themselves can differ from one run to the other. *)
Theorem pools_independent_of_draws :
  (∀ standings event_info g1 g2,
     fst <$> generate_prediction_run standings event_info g1
     = fst <$> generate_prediction_run standings event_info g2)
  ∧ (∀ df event_info g pools r,
       df_empty df = false →
       generate_prediction_run (Some df) event_info g = Ok (pools, r) →
       ∃ drivers,
         collect_drivers (iterrows df) = Ok drivers
         ∧ pools = Some {| top_contenders := filter (λ d, position d ≤ 5) drivers;
                           midfield_strong := filter (λ d, 4 ≤ position d ≤ 8) drivers;
                           midfield_pack := filter (λ d, 9 ≤ position d ≤ 15) drivers |})
  ∧ (∃ r1 r2,
       generate_prediction (Some race_results) (Some monaco) draws_low = Ok r1
       ∧ generate_prediction (Some race_results) (Some monaco) draws_high = Ok r2
       ∧ r1 !! "podium_favorites" ≠ r2 !! "podium_favorites").
Proof.
  split; [exact run_pools_fixed|]. split.
  - intros df event_info g pools r He Hrun.
    destruct (run_returns _ _ _ _ _ He Hrun) as (drivers & en & el & tb & Hc & Hd).
    destruct (run_success df event_info g drivers _ _ _ He Hc Hd)
      as (? & ? & ? & Hrun' & _).
    rewrite Hrun in Hrun'. injection Hrun' as -> _. by exists drivers.
  - assert (∃ tb, describe_event (Some monaco)
                  = Ok (SStr "Monaco Grand Prix", SStr "Monaco", tb)) as [tb Hd].
    { destruct (describe_event_usable (Some monaco)) as [tb Hd]; [|by exists tb].
      right. by exists "Monaco Grand Prix". }
    unfold generate_prediction. rewrite !(run_unfold race_results) by reflexivity.
    assert (collect_drivers (iterrows race_results) = Ok race_candidates) as ->
      by (vm_compute; reflexivity).
    rewrite Hd.
    eexists _, _. split; [vm_compute; reflexivity|].
    split; [vm_compute; reflexivity|]. vm_compute. discriminate.
Qed.

(** ** The shape of the result *)

Lemma print_prediction_panel en el tb podium dh ps :
  print_prediction (make_prediction en el tb podium dh ps)
  = Ok (PredictionPanel
          (VScalar (if truthy en then en else SStr "Unknown Event"))
          (VScalar (if truthy el then el else SStr "Unknown Location"))
          (VScalar (SStr tb)) (VDrivers podium)
          (shown_if_truthy dh) (shown_if_truthy ps)).
Proof. reflexivity. Qed.

(** C10.  A result returned for non-empty standings has exactly the six
    keys of a prediction and no [error] key; the result returned for absent
    or empty standings has the [error] key alone.  The display tells them
    apart by that key: it draws the panel for the first and prints the
    error line for the second. *)
Theorem result_keys_distinguish_outcomes
    (standings : option DataFrame) (event_info : option event) (g : rng)
    (r : gmap string value) :
  generate_prediction standings event_info g = Ok r →
  ((∃ df, standings = Some df ∧ df_empty df = false) →
     dom r = {[ "event_name"; "location"; "tidbit"; "podium_favorites";
                "dark_horse"; "potential_surprise" ]}
     ∧ r !! "error" = None
     ∧ ∃ name location tidbit podium dark_horse surprise,
         print_prediction r
         = Ok (PredictionPanel name location tidbit podium dark_horse surprise))
  ∧ ((standings = None ∨ ∃ df, standings = Some df ∧ df_empty df = true) →
     dom r = {[ "error" ]}
     ∧ print_prediction r
       = Ok (ErrorLine
               (VScalar (SStr "Cannot generate prediction without driver standings.")))).
Proof.
  intros Hgp. split.
  - intros (df & -> & He).
    apply fmap_Ok in Hgp as ([p r'] & Hrun & ->).
    destruct (run_returns _ _ _ _ _ He Hrun) as (drivers & en & el & tb & Hc & Hd).
    destruct (run_success df event_info g drivers _ _ _ He Hc Hd)
      as (podium & dh & ps & Hrun' & _).
    rewrite Hrun in Hrun'. injection Hrun' as _ ->. cbn [snd].
    split; [apply dom_make_prediction|]. split; [reflexivity|].
    rewrite print_prediction_panel. eauto 10.
  - intros Hno.
    assert (r = error_record) as ->.
    { destruct Hno as [-> | (df & -> & He)].
      - by injection Hgp as <-.
      - unfold generate_prediction, generate_prediction_run in Hgp.
        rewrite He in Hgp. by injection Hgp as <-. }
    split; [apply dom_singleton_L | reflexivity].
Qed.


(** * Further properties of the code *)

(** ** Heads and tails of filtered lists *)

Lemma filter_head {A} (P : A → Prop) `{∀ x, Decision (P x)} (l : list A) (x : A)
    (rest : list A) :
  filter P l = x :: rest →
  ∃ before after, l = (before ++ x :: after)%list ∧ P x ∧ Forall (λ y, ¬ P y) before.
Proof.
  induction l as [|a l IH]; [done|].
  rewrite filter_cons. destruct (decide (P a)) as [Ha|Ha].
  - intros [= -> _]. by exists [], l.
  - intros Hf. destruct (IH Hf) as (before & after & -> & Hx & Hb).
    exists (a :: before), after. split; [done|]. split; [done|].
    by constructor.
Qed.

Lemma filter_last {A} (P : A → Prop) `{∀ x, Decision (P x)} (l : list A) (x : A) :
  last (filter P l) = Some x ↔
  ∃ before after, l = (before ++ x :: after)%list ∧ P x ∧ Forall (λ y, ¬ P y) after.
Proof.
  split.
  - induction l as [|a l IH] using rev_ind; [done|].
    rewrite filter_app, filter_cons, filter_nil.
    destruct (decide (P a)) as [Ha|Ha].
    + rewrite last_snoc. intros [= ->]. by exists l, [].
    + rewrite app_nil_r. intros Hl.
      destruct (IH Hl) as (before & after & -> & Hx & Ha').
      exists before, (after ++ [a])%list. rewrite <- app_assoc. split; [done|].
      split; [done|]. apply Forall_app. split; [done|]. by constructor.
  - intros (before & after & -> & Hx & Hafter).
    rewrite filter_app, filter_cons_True by done.
    assert (filter P after = []) as ->.
    { clear -Hafter. induction Hafter as [|y after Hy _ IH]; [done|].
      by rewrite filter_cons_False. }
    by rewrite last_snoc.
Qed.

Lemma filter_none {A} (P : A → Prop) `{∀ x, Decision (P x)} (l : list A) :
  filter P l = [] ↔ Forall (λ y, ¬ P y) l.
Proof.
  induction l as [|a l IH]; [by split; [constructor|]|].
  rewrite filter_cons, Forall_cons. destruct (decide (P a)); [|by rewrite IH; tauto].
  split; [done | tauto].
Qed.

Lemma sorted_before_le {A} (R : A → A → Prop) (before : list A) (x : A)
    (after : list A) (y : A) :
  StronglySorted R (before ++ x :: after)%list → y ∈ before → R y x.
Proof.
  induction before as [|b before IH]; intros Hsorted Hin;
    [by apply elem_of_nil in Hin|].
  simpl in Hsorted. apply StronglySorted_inv in Hsorted as [Hsorted Hall].
  apply elem_of_cons in Hin as [->|Hin]; [|by apply IH].
  rewrite List.Forall_forall in Hall. apply Hall.
  apply in_or_app. right. by left.
Qed.

(** ** [get_next_gp], whatever the order of the schedule *)

Lemma error_given_message (msg : string) :
  msg ≠ "" → error_given (Some msg) = Some msg.
Proof.
  intros Hne. unfold error_given. by destruct (String.eqb_spec msg "").
Qed.

Lemma get_next_gp_outcome get_event_schedule get_event_by_name now gp_name_query :
  (∃ e, get_next_gp get_event_schedule get_event_by_name now gp_name_query
        = (Some e, None))
  ∨ (∃ msg, get_next_gp get_event_schedule get_event_by_name now gp_name_query
            = (None, Some msg)
            ∧ msg ≠ "").
Proof.
  destruct get_event_schedule as [schedule|ex].
  - rewrite get_next_gp_fetched.
    destruct (filter _ schedule) as [|first rest]; [right; by eexists|].
    destruct (query_given gp_name_query) as [q|]; [|left; eauto].
    destruct (get_event_by_name schedule q) as [[e'|]|ex].
    + destruct (bool_decide (now ≤ EventDate e')); [left; eauto | right; by eexists].
    + right. by eexists.
    + right. by eexists.
  - right. by eexists.
Qed.

(** X1.  [get_next_gp] never returns an event dated before [now], whether
    the schedule is in date order or not; without a query the event it
    returns is the first row of the schedule dated [now] or later: every
    row listed before it is in the past. *)
Theorem get_next_gp_first_future_row
    (get_event_schedule : Res (list Event))
    (get_event_by_name : list Event → string → Res (option Event))
    (now : Z) (gp_name_query : option string) (e : Event) :
  get_next_gp get_event_schedule get_event_by_name now gp_name_query
    = (Some e, None) →
  now ≤ EventDate e
  ∧ (query_given gp_name_query = None →
     ∃ before after,
       get_event_schedule = Ok (before ++ e :: after)%list
       ∧ Forall (λ e', EventDate e' < now) before).
Proof.
  destruct get_event_schedule as [schedule|ex]; [|discriminate].
  rewrite get_next_gp_fetched.
  destruct (filter (λ e, now ≤ EventDate e) schedule) as [|first rest] eqn:Hf;
    [discriminate|].
  apply filter_head in Hf as (before & after & -> & Hfirst & Hbefore).
  destruct (query_given gp_name_query) as [q|].
  - destruct (get_event_by_name _ q) as [[e'|]|ex]; try discriminate.
    destruct (bool_decide_reflect (now ≤ EventDate e')); [|discriminate].
    intros [= ->]. done.
  - intros [= ->]. split; [done|]. intros _. exists before, after.
    split; [done|]. eapply Forall_impl; [exact Hbefore|]. simpl. lia.
Qed.

(** ** [get_driver_standings] *)

Lemma get_driver_standings_fetched year get_event_schedule get_session_results now
    schedule :
  get_event_schedule year = Ok schedule →
  get_driver_standings year get_event_schedule get_session_results now =
    match last (filter (completed_race now) schedule) with
    | None => (None, Some "The season has not started yet. No standings available.")
    | Some last_race =>
        match get_session_results year (RoundNumber last_race) with
        | Ok results => (Some results, None)
        | Raise ex =>
            (None, Some ("Could not fetch driver standings using fastf1: "
                         +:+ exn_str ex))
        end
    end.
Proof.
  intros Hs. unfold get_driver_standings. rewrite Hs. res_step.
  destruct (last _) as [last_race|]; [|done].
  by destruct (get_session_results year (RoundNumber last_race)).
Qed.

Lemma get_driver_standings_outcome year get_event_schedule get_session_results now :
  (∃ results, get_driver_standings year get_event_schedule get_session_results now
              = (Some results, None))
  ∨ (∃ msg, get_driver_standings year get_event_schedule get_session_results now
            = (None, Some msg)
            ∧ msg ≠ "").
Proof.
  destruct (get_event_schedule year) as [schedule|ex] eqn:Hs.
  - rewrite (get_driver_standings_fetched _ _ _ _ _ Hs).
    destruct (last _) as [last_race|]; [|right; by eexists].
    destruct (get_session_results year (RoundNumber last_race));
      [left; eauto | right; by eexists].
  - right. unfold get_driver_standings. rewrite Hs. by eexists.
Qed.

(** X2.  With the schedule fetched, [get_driver_standings] returns a table
    exactly when the schedule has a completed race (its name contains
    "Grand Prix", its date is before [now]) and the session of the last
    such row, in schedule order, loads: the table is that session's
    results, asked for by the row's round number; in a schedule listed by
    date no completed race is dated later. *)
Theorem standings_of_last_completed_race
    (year : Z) (get_event_schedule : Z → Res (list Round))
    (get_session_results : Z → Z → Res DataFrame) (now : Z)
    (schedule : list Round) (results : DataFrame) :
  get_event_schedule year = Ok schedule →
  (get_driver_standings year get_event_schedule get_session_results now
     = (Some results, None)
   ↔ ∃ before last_race after,
       schedule = (before ++ last_race :: after)%list
       ∧ completed_race now last_race
       ∧ Forall (λ r, ¬ completed_race now r) after
       ∧ get_session_results year (RoundNumber last_race) = Ok results)
  ∧ (∀ before last_race after,
       schedule = (before ++ last_race :: after)%list →
       Forall (λ r, ¬ completed_race now r) after →
       StronglySorted (λ a b, EventDate (round_event a) ≤ EventDate (round_event b))
         schedule →
       ∀ r, r ∈ schedule → completed_race now r →
            EventDate (round_event r) ≤ EventDate (round_event last_race)).
Proof.
  intros Hs. split.
  - rewrite (get_driver_standings_fetched _ _ _ _ _ Hs). split.
    + destruct (last _) as [last_race|] eqn:Hl; [|discriminate].
      apply filter_last in Hl as (before & after & -> & Hc & Hafter).
      destruct (get_session_results year (RoundNumber last_race)) as [res|ex] eqn:Hr;
        [|discriminate].
      intros [= ->]. by exists before, last_race, after.
    + intros (before & last_race & after & -> & Hc & Hafter & Hr).
      assert (last (filter (completed_race now) (before ++ last_race :: after)%list)
              = Some last_race) as -> by (apply filter_last; eauto).
      by rewrite Hr.
  - intros before last_race after -> Hafter Hsorted r Hin Hc.
    apply elem_of_app in Hin as [Hin | Hin].
    + exact (sorted_before_le
               (λ a b, EventDate (round_event a) ≤ EventDate (round_event b))
               before last_race after r Hsorted Hin).
    + apply elem_of_cons in Hin as [->|Hin]; [lia|].
      rewrite Forall_forall in Hafter. by destruct (Hafter r Hin).
Qed.

(** X3.  The lookup answers that the season has not started exactly when no
    row of the fetched schedule is a completed race: a past event that is
    not a "Grand Prix" does not count, and the session service is not
    consulted. *)
Theorem standings_season_not_started
    (year : Z) (get_event_schedule : Z → Res (list Round))
    (get_session_results : Z → Z → Res DataFrame) (now : Z)
    (schedule : list Round) :
  get_event_schedule year = Ok schedule →
  (get_driver_standings year get_event_schedule get_session_results now
     = (None, Some "The season has not started yet. No standings available.")
   ↔ Forall (λ r, ¬ completed_race now r) schedule).
Proof.
  intros Hs. rewrite (get_driver_standings_fetched _ _ _ _ _ Hs).
  rewrite <- filter_none. split.
  - destruct (filter (completed_race now) schedule) as [|r l] eqn:Hf; [done|].
    destruct (last (r :: l)) as [last_race|] eqn:Hl.
    + destruct (get_session_results year (RoundNumber last_race)); discriminate.
    + by apply last_None in Hl.
  - by intros ->.
Qed.

(** X4.  Each lookup returns either a value and no error, or no value and a
    message that is not empty, so the test [if error:] of [main] tells the
    two apart. *)
Theorem lookups_return_value_or_message
    (year : Z) (get_event_schedule : Z → Res (list Round))
    (get_event_by_name : list Event → string → Res (option Event))
    (get_session_results : Z → Z → Res DataFrame)
    (now : Z) (gp_name_query : option string) :
  let next := get_next_gp (map round_event <$> get_event_schedule year)
                get_event_by_name now gp_name_query in
  let standings := get_driver_standings year get_event_schedule
                     get_session_results now in
  ((∃ e, next = (Some e, None) ∧ error_given (snd next) = None)
   ∨ (∃ msg, next = (None, Some msg) ∧ error_given (snd next) = Some msg))
  ∧ ((∃ results, standings = (Some results, None)
                 ∧ error_given (snd standings) = None)
     ∨ (∃ msg, standings = (None, Some msg)
               ∧ error_given (snd standings) = Some msg)).
Proof.
  intros next standings. split.
  - destruct (get_next_gp_outcome (map round_event <$> get_event_schedule year)
                get_event_by_name now gp_name_query) as [[e He] | (msg & He & Hne)];
      subst next; rewrite He; [left | right]; eexists; split; [done|done|done|].
    by apply error_given_message.
  - destruct (get_driver_standings_outcome year get_event_schedule
                get_session_results now) as [[res He] | (msg & He & Hne)];
      subst standings; rewrite He; [left | right]; eexists; split; [done|done|done|].
    by apply error_given_message.
Qed.

(** X5.  When both lookups see the same schedule at the same time, the race
    whose results are fetched is strictly earlier than the event that is
    predicted: the standings never come from the upcoming event. *)
Theorem standings_precede_predicted_event
    (year : Z) (get_event_schedule : Z → Res (list Round))
    (get_event_by_name : list Event → string → Res (option Event))
    (get_session_results : Z → Z → Res DataFrame)
    (now : Z) (gp_name_query : option string)
    (e : Event) (results : DataFrame) :
  get_next_gp (map round_event <$> get_event_schedule year)
    get_event_by_name now gp_name_query = (Some e, None) →
  get_driver_standings year get_event_schedule get_session_results now
    = (Some results, None) →
  ∃ schedule last_race,
    get_event_schedule year = Ok schedule
    ∧ last_race ∈ schedule
    ∧ get_session_results year (RoundNumber last_race) = Ok results
    ∧ EventDate (round_event last_race) < EventDate e
    ∧ round_event last_race ≠ e.
Proof.
  intros Hnext Hlast.
  destruct (get_event_schedule year) as [schedule|ex] eqn:Hs.
  2: { unfold get_driver_standings in Hlast. rewrite Hs in Hlast. discriminate. }
  rewrite (get_driver_standings_fetched _ _ _ _ _ Hs) in Hlast.
  destruct (last _) as [last_race|] eqn:Hl; [|discriminate].
  apply filter_last in Hl as (before & after & -> & [_ Hpast] & _).
  destruct (get_session_results year (RoundNumber last_race)) as [res|ex] eqn:Hr;
    [|discriminate].
  injection Hlast as ->.
  assert (now ≤ EventDate e) as Hfuture.
  { simpl in Hnext. rewrite get_next_gp_fetched in Hnext.
    destruct (filter (λ e, now ≤ EventDate e) _) as [|first rest] eqn:Hf;
      [discriminate|].
    apply filter_head in Hf as (b & a & _ & Hfirst & _).
    destruct (query_given gp_name_query) as [q|]; [|by injection Hnext as <-].
    destruct (get_event_by_name _ q) as [[e'|]|ex]; try discriminate.
    destruct (bool_decide_reflect (now ≤ EventDate e')); [|discriminate].
    by injection Hnext as <-. }
  exists (before ++ last_race :: after)%list, last_race. split; [done|].
  split; [apply elem_of_app; right; left|]. split; [done|].
  split; [lia|]. intros <-. lia.
Qed.

(** ** More on the engine *)




Lemma run_characterised (df : DataFrame) (event_info : option event) (g : rng) r :
  df_empty df = false →
  generate_prediction (Some df) event_info g = Ok r →
  ∃ drivers tb podium dh ps,
    collect_drivers (iterrows df) = Ok drivers
    ∧ event_name_usable event_info
    ∧ r = make_prediction (event_name_of event_info) (event_location_of event_info)
            tb podium dh ps
    ∧ podium ⊆+ top_contenders (make_pools drivers)
    ∧ drawn_from (midfield_strong (make_pools drivers)) dh
    ∧ drawn_from (midfield_pack (make_pools drivers)) ps.
Proof.
  intros He Hgp. apply fmap_Ok in Hgp as ([p r'] & Hrun & ->).
  destruct (run_returns _ _ _ _ _ He Hrun) as (drivers & en & el & tb & Hc & Hd).
  destruct (run_success df event_info g drivers _ _ _ He Hc Hd)
    as (podium & dh & ps & Hrun' & _ & Hsub & Hdh & Hps).
  rewrite Hrun in Hrun'. injection Hrun' as _ ->.
  destruct (describe_event_fields _ _ _ _ Hd) as [-> ->].
  exists drivers, tb, podium, dh, ps. split; [done|].
  split; [by eapply describe_event_returns|]. done.
Qed.

Lemma drawn_from_driver (pool : list Driver) (d : Driver) :
  drawn_from pool (VDriver d) → d ∈ pool.
Proof.
  unfold drawn_from. destruct pool; [done|]. by intros (d' & [= ->] & Hin).
Qed.

Lemma shown_drivers_prediction en el tb podium dh ps :
  shown_drivers (make_prediction en el tb podium dh ps)
  = (podium ++ drivers_of_value (Some dh) ++ drivers_of_value (Some ps))%list.
Proof. reflexivity. Qed.

Lemma drawn_from_shown (pool : list Driver) (v : value) (d : Driver) :
  drawn_from pool v → d ∈ drivers_of_value (Some v) → d ∈ pool.
Proof.
  intros Hv Hd. destruct v as [s|d'|l]; simpl in Hd.
  - by apply elem_of_nil in Hd.
  - apply list_elem_of_singleton in Hd as ->. by apply drawn_from_driver.
  - unfold drawn_from in Hv. destruct pool; [done|]. by destruct Hv as (? & ? & _).
Qed.

Lemma collect_drivers_from_rows (rows : list Series) (drivers : list Driver) (d : Driver) :
  collect_drivers rows = Ok drivers → d ∈ drivers →
  ∃ row, row ∈ rows ∧ row_kept row = true ∧ driver_of_row row = Ok (Some d).
Proof.
  intros Hc Hd. apply collect_drivers_returns in Hc.
  apply list_elem_of_lookup in Hd as [i Hi].
  destruct (Forall2_lookup_r _ _ _ _ _ Hc Hi) as (row & Hrow & Hdr).
  apply list_elem_of_lookup_2, list_elem_of_In, filter_In in Hrow as [Hin Hk].
  exists row. split; [by apply list_elem_of_In|]. done.
Qed.

(** X7.  Every driver named in a returned prediction, as podium favourite,
    dark horse or surprise, was built from a row of the table whose position
    is not missing: the team is the row's [TeamName] and the position is
    [int] of the row's [Position]; and its position is at most 15, so a
    driver placed beyond 15 is never named. *)
Theorem shown_drivers_come_from_rows
    (df : DataFrame) (event_info : option event) (g : rng)
    (r : gmap string value) (d : Driver) :
  df_empty df = false →
  generate_prediction (Some df) event_info g = Ok r →
  d ∈ shown_drivers r →
  position d ≤ 15
  ∧ ∃ row pos,
      row ∈ iterrows df
      ∧ series_find row "Position" = Some pos
      ∧ isna pos = false
      ∧ py_int pos = Ok (position d)
      ∧ series_find row "TeamName" = Some (constructor d)
      ∧ name d = preferred_name row.
Proof.
  intros He Hgp Hd.
  destruct (run_characterised _ _ _ _ He Hgp)
    as (drivers & tb & podium & dh & ps & Hc & _ & -> & Hsub & Hdh & Hps).
  rewrite shown_drivers_prediction in Hd.
  assert (d ∈ drivers ∧ position d ≤ 15) as [Hin Hle].
  { apply elem_of_app in Hd as [Hd | Hd];
      [|apply elem_of_app in Hd as [Hd | Hd]].
    - apply (elem_of_submseteq _ _ _ Hd) in Hsub.
      apply list_elem_of_filter in Hsub as [? ?]. split; [done | lia].
    - apply (drawn_from_shown _ _ _ Hdh) in Hd.
      apply list_elem_of_filter in Hd as [? ?]. split; [done | lia].
    - apply (drawn_from_shown _ _ _ Hps) in Hd.
      apply list_elem_of_filter in Hd as [? ?]. split; [done | lia]. }
  split; [done|].
  destruct (collect_drivers_from_rows _ _ _ Hc Hin) as (row & Hrow & Hk & Hdr).
  apply driver_of_row_returns in Hdr as (_ & Hname & (pos & Hpos & Hint) & Hteam).
  exists row, pos. unfold row_kept in Hk. rewrite Hpos in Hk.
  split; [done|]. split; [done|]. split; [by destruct (isna pos)|]. done.
Qed.

(** X8.  In a returned prediction the surprise is never the dark horse and
    never a podium favourite, since the low pool shares no position with
    the other two; the dark horse can be a podium favourite, and is one
    only at position 4 or 5, where the top and mid pools overlap. *)
Theorem picks_across_pools
    (df : DataFrame) (event_info : option event) (g : rng)
    (r : gmap string value) :
  df_empty df = false →
  generate_prediction (Some df) event_info g = Ok r →
  ∃ podium dh ps,
    r !! "podium_favorites" = Some (VDrivers podium)
    ∧ r !! "dark_horse" = Some dh
    ∧ r !! "potential_surprise" = Some ps
    ∧ (∀ d, ps = VDriver d → (d ∉ podium) ∧ (dh ≠ VDriver d))
    ∧ (∀ d, dh = VDriver d → d ∈ podium → 4 ≤ position d ≤ 5).
Proof.
  intros He Hgp.
  destruct (run_characterised _ _ _ _ He Hgp)
    as (drivers & tb & podium & dh & ps & Hc & _ & -> & Hsub & Hdh & Hps).
  exists podium, dh, ps. split; [reflexivity|]. split; [reflexivity|].
  split; [reflexivity|]. split.
  - intros d ->. apply drawn_from_driver, list_elem_of_filter in Hps as [Hlow _].
    split.
    + intros Hin. apply (elem_of_submseteq _ _ _ Hin) in Hsub.
      apply list_elem_of_filter in Hsub as [? _]. lia.
    + intros ->. apply drawn_from_driver, list_elem_of_filter in Hdh as [? _]. lia.
  - intros d -> Hin. apply drawn_from_driver, list_elem_of_filter in Hdh as [? _].
    apply (elem_of_submseteq _ _ _ Hin) in Hsub.
    apply list_elem_of_filter in Hsub as [? _]. lia.
Qed.

(** X9.  The [event_name] of a returned prediction is never empty: it is the
    descriptor's name when that is a non-empty text and "Unknown Event" in
    every other case, a name that is present but empty or [None] included;
    the [location] is likewise the descriptor's location when that is
    truthy and "Unknown Location" otherwise. *)
Theorem event_name_and_location_defaults
    (df : DataFrame) (event_info : option event) (g : rng)
    (r : gmap string value) :
  df_empty df = false →
  generate_prediction (Some df) event_info g = Ok r →
  ∃ shown_name shown_location,
    r !! "event_name" = Some (VScalar (SStr shown_name))
    ∧ r !! "location" = Some (VScalar shown_location)
    ∧ shown_name ≠ ""
    ∧ truthy shown_location = true
    ∧ (∀ s, event_name_of event_info = SStr s → s ≠ "" → shown_name = s)
    ∧ (truthy (event_name_of event_info) = false → shown_name = "Unknown Event")
    ∧ (truthy (event_location_of event_info) = true →
       shown_location = event_location_of event_info)
    ∧ (truthy (event_location_of event_info) = false →
       shown_location = SStr "Unknown Location").
Proof.
  intros He Hgp.
  destruct (run_characterised _ _ _ _ He Hgp)
    as (drivers & tb & podium & dh & ps & _ & Hev & -> & _).
  unfold event_name_usable in Hev.
  set (n := event_name_of event_info) in *.
  set (l := event_location_of event_info) in *.
  assert (∃ s, (if truthy n then n else SStr "Unknown Event") = SStr s
               ∧ s ≠ ""
               ∧ (∀ s', n = SStr s' → s' ≠ "" → s = s')
               ∧ (truthy n = false → s = "Unknown Event"))
    as (s & Hs & Hne & Hkeep & Hdef).
  { destruct Hev as [Hf | [s' Hn]].
    - rewrite Hf. exists "Unknown Event". split; [done|]. split; [done|].
      split; [|done]. intros s' Hn Hs'. rewrite Hn in Hf. simpl in Hf.
      by destruct (String.eqb_spec s' "").
    - rewrite Hn. simpl. destruct (String.eqb_spec s' "") as [->|Hs']; simpl.
      + exists "Unknown Event". split; [done|]. split; [done|]. split; [|done].
        by intros ? [= <-].
      + exists s'. split; [done|]. split; [done|]. split; [|done].
        by intros ? [= <-]. }
  exists s, (if truthy l then l else SStr "Unknown Location").
  split; [unfold make_prediction; rewrite <- Hs; reflexivity|].
  split; [reflexivity|]. split; [done|].
  split; [by destruct (truthy l) eqn:Hl|].
  split; [done|]. split; [done|]. split; by intros ->.
Qed.

Lemma find_first {A} (f : A → bool) (l : list A) (x : A) :
  List.find f l = Some x →
  ∃ before after,
    l = (before ++ x :: after)%list ∧ f x = true
    ∧ Forall (λ y, f y = false) before.
Proof.
  induction l as [|a l IH]; [done|]. simpl.
  destruct (f a) eqn:Ha.
  - intros [= ->]. by exists [], l.
  - intros Hf. destruct (IH Hf) as (before & after & -> & Hx & Hb).
    exists (a :: before), after. split; [done|]. split; [done|]. by constructor.
Qed.

Lemma find_nothing {A} (f : A → bool) (l : list A) :
  List.find f l = None → Forall (λ y, f y = false) l.
Proof.
  induction l as [|a l IH]; [constructor|]. simpl.
  destruct (f a) eqn:Ha; [done|]. intros Hf. constructor; [done | by apply IH].
Qed.

(** X10.  The tidbit is chosen from the event's name alone and in the order
    of the table: it is the text of the first entry whose circuit name
    occurs in the name, both put in lower case by [str.lower], no earlier
    entry occurring in it, or the generic text when no entry does.  For the
    name "monza or MONACO" it is the Monaco entry, which stands before the
    Monza entry in the table.  The location is not consulted: two events
    of the same name get the same tidbit wherever they take place. *)
Theorem tidbit_first_entry_by_name_only
    (df : DataFrame) (event_info : option event) (g : rng)
    (drivers : list Driver) (n : string) :
  df_empty df = false →
  collect_drivers (iterrows df) = Ok drivers →
  event_name_of event_info = SStr n →
  ∃ r text,
    generate_prediction (Some df) event_info g = Ok r
    ∧ r !! "tidbit" = Some (VScalar (SStr text))
    ∧ ((text = "A circuit that always brings excitement!"
        ∧ Forall (λ entry, contains (lower_of_str (fst entry)) (lower_of_str n)
                           = false)
            CIRCUIT_TIDBITS)
       ∨ (∃ before key after,
            CIRCUIT_TIDBITS = (before ++ (key, text) :: after)%list
            ∧ contains (lower_of_str key) (lower_of_str n) = true
            ∧ Forall (λ entry, contains (lower_of_str (fst entry)) (lower_of_str n)
                               = false)
                before))
    ∧ (∀ other g',
         event_name_of other = SStr n →
         ∃ r', generate_prediction (Some df) other g' = Ok r'
               ∧ r' !! "tidbit" = Some (VScalar (SStr text)))
    ∧ (n = "monza or MONACO" →
       text = "The crown jewel. Overtaking is nearly impossible, so qualifying is everything.").
Proof.
  intros He Hc Hn.
  pose proof (describe_event_text _ _ Hn) as Hd.
  destruct (run_success df event_info g drivers _ _ _ He Hc Hd)
    as (podium & dh & ps & Hrun & _).
  eexists _, (tidbit_by_match n).
  split; [exact (generate_prediction_of_run _ _ _ _ _ Hrun)|].
  split; [reflexivity|]. split; [|split].
  - unfold tidbit_by_match.
    destruct (List.find _ CIRCUIT_TIDBITS) as [[key text]|] eqn:Hfind.
    + right. apply find_first in Hfind as (before & after & Ht & Hm & Hb).
      by exists before, key, after.
    + left. split; [done|]. by apply find_nothing.
  - intros other g' Hn'.
    pose proof (describe_event_text _ _ Hn') as Hd'.
    destruct (run_success df other g' drivers _ _ _ He Hc Hd')
      as (podium' & dh' & ps' & Hrun' & _).
    eexists. split; [exact (generate_prediction_of_run _ _ _ _ _ Hrun')|].
    reflexivity.
  - intros ->. rewrite tidbit_by_match_latin1 by reflexivity.
    vm_compute. reflexivity.
Qed.

(** ** The display of a returned prediction *)

Lemma shown_if_truthy_drawn (pool : list Driver) (v : value) :
  drawn_from pool v →
  (shown_if_truthy v = None ↔ pool = [])
  ∧ (∀ w, shown_if_truthy v = Some w → ∃ d, w = VDriver d ∧ d ∈ pool).
Proof.
  unfold drawn_from. destruct pool as [|d0 pool].
  - intros ->. split; [done|]. by intros w [=].
  - intros (d & -> & Hin). split; [done|]. intros w [= <-]. eauto.
Qed.

(** X11.  When the texts to show hold no bracket (the event's name and
    location, the names and teams of the candidates), so that the console
    reads no markup in them, [print_prediction] on the prediction the engine
    returns takes the panel branch with all six keys read: the panel lists
    the sampled podium, has a dark-horse line exactly when the mid pool is
    not empty and a surprise line exactly when the low pool is not empty,
    each naming a driver of its pool. *)
Theorem panel_of_returned_prediction
    (df : DataFrame) (event_info : option event) (g : rng) (drivers : list Driver) :
  df_empty df = false →
  collect_drivers (iterrows df) = Ok drivers →
  event_name_usable event_info →
  plain_text (py_str (event_name_of event_info)) = true →
  plain_text (py_str (event_location_of event_info)) = true →
  Forall plain_driver drivers →
  let mid := filter (λ d, 4 ≤ position d ≤ 8) drivers in
  let low := filter (λ d, 9 ≤ position d ≤ 15) drivers in
  ∃ r name location tidbit podium dark_horse surprise,
    generate_prediction (Some df) event_info g = Ok r
    ∧ r !! "podium_favorites" = Some (VDrivers podium)
    ∧ print_prediction r
      = Ok (PredictionPanel name location tidbit (VDrivers podium)
              dark_horse surprise)
    ∧ (dark_horse = None ↔ mid = [])
    ∧ (surprise = None ↔ low = [])
    ∧ (∀ v, dark_horse = Some v → ∃ d, v = VDriver d ∧ d ∈ mid)
    ∧ (∀ v, surprise = Some v → ∃ d, v = VDriver d ∧ d ∈ low).
Proof.
  intros He Hc Hev _ _ _ mid low.
  destruct (describe_event_usable _ Hev) as [tb Hd].
  destruct (run_success df event_info g drivers _ _ _ He Hc Hd)
    as (podium & dh & ps & Hrun & _ & _ & Hdh & Hps).
  apply shown_if_truthy_drawn in Hdh as [Hdn Hds].
  apply shown_if_truthy_drawn in Hps as [Hpn Hpss].
  eexists _, _, _, _, podium, _, _.
  split; [exact (generate_prediction_of_run _ _ _ _ _ Hrun)|].
  split; [reflexivity|].
  split; [apply print_prediction_panel|]. done.
Qed.

(** ** [main] *)

Lemma event_object_name (e : Event) :
  event_name_of (Some (event_object e)) = SStr (EventName e).
Proof. reflexivity. Qed.

Lemma event_object_location (e : Event) :
  event_location_of (Some (event_object e)) = SStr (Location e).
Proof. reflexivity. Qed.

Lemma event_object_usable (e : Event) : event_name_usable (Some (event_object e)).
Proof. right. by exists (EventName e). Qed.

Lemma generate_prediction_raises (df : DataFrame) (event_info : option event)
    (g : rng) (ex : exn) :
  df_empty df = false →
  event_name_usable event_info →
  generate_prediction (Some df) event_info g = Raise ex
  ↔ collect_drivers (iterrows df) = Raise ex.
Proof.
  intros He Hev. destruct (describe_event_usable _ Hev) as [tb Hd].
  destruct (collect_drivers (iterrows df)) as [drivers|ex'] eqn:Hc.
  - destruct (run_success df event_info g drivers _ _ _ He Hc Hd)
      as (podium & dh & ps & Hrun & _).
    rewrite (generate_prediction_of_run _ _ _ _ _ Hrun). by split.
  - unfold generate_prediction. rewrite (run_unfold _ _ _ He), Hc. res_step.
    cbn [fmap Res_fmap]. split; by intros [= ->].
Qed.


Lemma main_after_next get_event_schedule get_event_by_name get_session_results
    year_next now_next year_last now_last gp_name g e :
  get_next_gp (map round_event <$> get_event_schedule year_next)
    get_event_by_name now_next gp_name = (Some e, None) →
  main get_event_schedule get_event_by_name get_session_results
    year_next now_next year_last now_last gp_name g
  = let last := get_driver_standings year_last get_event_schedule
                  get_session_results now_last in
    match error_given (snd last) with
    | Some msg => Ok (intro_lines gp_name ++ [ErrorMessage msg])%list
    | None =>
        prediction ← generate_prediction (fst last) (Some (event_object e)) g;
        out ← print_prediction prediction;
        Ok (intro_lines gp_name ++ [Display out])%list
    end.
Proof.
  intros Hnext. unfold main, intro_lines. rewrite Hnext. cbn [error_given].
  by destruct (get_driver_standings _ _ _ _) as [standings error].
Qed.


Lemma main_with_results get_event_schedule get_event_by_name get_session_results
    year_next now_next year_last now_last gp_name g e df :
  get_next_gp (map round_event <$> get_event_schedule year_next)
    get_event_by_name now_next gp_name = (Some e, None) →
  get_driver_standings year_last get_event_schedule get_session_results now_last
    = (Some df, None) →
  main get_event_schedule get_event_by_name get_session_results
    year_next now_next year_last now_last gp_name g
  = (prediction ← generate_prediction (Some df) (Some (event_object e)) g;
     out ← print_prediction prediction;
     Ok (intro_lines gp_name ++ [Display out])%list).
Proof.
  intros Hnext Hlast. rewrite (main_after_next _ _ _ _ _ _ _ _ _ _ Hnext).
  by rewrite Hlast.
Qed.


(** X13.  When both lookups succeed, the results table is not empty, has
    pairwise distinct column labels and is readable, and the texts to show
    hold no bracket, [main] prints, after its introduction, the panel of a
    prediction for the event the schedule lookup returned: the panel is
    titled with the event's name and location ("Unknown Event" and
    "Unknown Location" when they are empty), carries the tidbit chosen by
    the name and at most three podium favourites. *)
Theorem main_prints_prediction
    (get_event_schedule : Z → Res (list Round))
    (get_event_by_name : list Event → string → Res (option Event))
    (get_session_results : Z → Z → Res DataFrame)
    (year_next now_next year_last now_last : Z)
    (gp_name : option string) (g : rng) (e : Event) (df : DataFrame)
    (drivers : list Driver) :
  get_next_gp (map round_event <$> get_event_schedule year_next)
    get_event_by_name now_next gp_name = (Some e, None) →
  get_driver_standings year_last get_event_schedule get_session_results now_last
    = (Some df, None) →
  df_empty df = false →
  NoDup (columns df) →
  Forall row_readable (iterrows df) →
  collect_drivers (iterrows df) = Ok drivers →
  Forall plain_driver drivers →
  plain_text (EventName e) = true →
  plain_text (Location e) = true →
  ∃ podium dark_horse surprise,
    main get_event_schedule get_event_by_name get_session_results
      year_next now_next year_last now_last gp_name g
    = Ok (intro_lines gp_name
          ++ [Display
                (PredictionPanel
                   (VScalar (SStr (if String.eqb (EventName e) ""
                                   then "Unknown Event" else EventName e)))
                   (VScalar (SStr (if String.eqb (Location e) ""
                                   then "Unknown Location" else Location e)))
                   (VScalar (SStr (tidbit_by_match (EventName e))))
                   (VDrivers podium) dark_horse surprise)])%list
    ∧ (length podium ≤ 3)%nat
    ∧ podium ⊆+ filter (λ d, position d ≤ 5) drivers.
Proof.
  intros Hnext Hlast He _ _ Hc _ _ _.
  rewrite (main_with_results _ _ _ _ _ _ _ _ _ _ _ Hnext Hlast).
  pose proof (describe_event_text _ _ (event_object_name e)) as Hd.
  destruct (run_success df (Some (event_object e)) g drivers _ _ _ He Hc Hd)
    as (podium & dh & ps & Hrun & Hlen & Hsub & _).
  rewrite (generate_prediction_of_run _ _ _ _ _ Hrun). res_step.
  rewrite print_prediction_panel. res_step.
  exists podium, (shown_if_truthy dh), (shown_if_truthy ps).
  split; [|split; [lia | done]].
  rewrite event_object_location. cbn [truthy].
  by destruct (String.eqb (EventName e) ""), (String.eqb (Location e) "").
Qed.

(** X14.  When both lookups succeed and the results table is empty, [main]
    prints the engine's error line after its introduction. *)
Theorem main_reports_empty_results
    (get_event_schedule : Z → Res (list Round))
    (get_event_by_name : list Event → string → Res (option Event))
    (get_session_results : Z → Z → Res DataFrame)
    (year_next now_next year_last now_last : Z)
    (gp_name : option string) (g : rng) (e : Event) (df : DataFrame) :
  get_next_gp (map round_event <$> get_event_schedule year_next)
    get_event_by_name now_next gp_name = (Some e, None) →
  get_driver_standings year_last get_event_schedule get_session_results now_last
    = (Some df, None) →
  df_empty df = true →
  main get_event_schedule get_event_by_name get_session_results
    year_next now_next year_last now_last gp_name g
  = Ok (intro_lines gp_name
        ++ [Display
              (ErrorLine
                 (VScalar
                    (SStr "Cannot generate prediction without driver standings.")))])%list.
Proof.
  intros Hnext Hlast He.
  rewrite (main_with_results _ _ _ _ _ _ _ _ _ _ _ Hnext Hlast).
  unfold generate_prediction, generate_prediction_run. rewrite He. reflexivity.
Qed.

(** X15.  [main] has no handler of its own: when both lookups succeed and
    building the candidates from the non-empty results table raises, [main]
    raises that same exception instead of printing an error line. *)
Theorem main_lets_engine_exception_escape
    (get_event_schedule : Z → Res (list Round))
    (get_event_by_name : list Event → string → Res (option Event))
    (get_session_results : Z → Z → Res DataFrame)
    (year_next now_next year_last now_last : Z)
    (gp_name : option string) (g : rng) (e : Event) (df : DataFrame) (ex : exn) :
  get_next_gp (map round_event <$> get_event_schedule year_next)
    get_event_by_name now_next gp_name = (Some e, None) →
  get_driver_standings year_last get_event_schedule get_session_results now_last
    = (Some df, None) →
  df_empty df = false →
  NoDup (columns df) →
  collect_drivers (iterrows df) = Raise ex →
  main get_event_schedule get_event_by_name get_session_results
    year_next now_next year_last now_last gp_name g = Raise ex.
Proof.
  intros Hnext Hlast He _ Hc.
  rewrite (main_with_results _ _ _ _ _ _ _ _ _ _ _ Hnext Hlast).
  apply (generate_prediction_raises df (Some (event_object e)) g ex He
           (event_object_usable e)) in Hc.
  by rewrite Hc.
Qed.

(** ** Where the engine raises *)

Lemma driver_of_row_raises (row : Series) (ex : exn) :
  driver_of_row row = Raise ex ↔ row_raises row ex.
Proof.
  unfold driver_of_row, row_raises, series_getitem.
  destruct (series_find row "Position") as [pos|]; res_step.
  2: { split; [intros [= <-]; by left | intros [[_ ->] | (? & [=] & _)]; done]. }
  destruct (isna pos) eqn:Hna.
  { split; [done|]. intros [[[=] _] | (pos' & [= <-] & Hna' & _)]. congruence. }
  rewrite driver_name_preferred. res_step.
  destruct (py_int pos) as [z|ex'] eqn:Hint; res_step.
  2: { split.
       - intros [= <-]. right. exists pos. eauto.
       - intros [[[=] _] | (pos' & [= <-] & _ & [Hr | [[z Hz] _]])]; congruence. }
  destruct (series_find row "TeamName") as [team|]; res_step.
  - split; [done|].
    intros [[[=] _] | (pos' & [= <-] & _ & [Hr | (_ & [=] & _)])]. congruence.
  - split.
    + intros [= <-]. right. exists pos. split; [done|]. split; [done|].
      right. eauto.
    + intros [[[=] _] | (pos' & [= <-] & _ & [Hr | (_ & _ & ->)])];
        [congruence | done].
Qed.

Lemma collect_drivers_raises_cons (row : Series) (rows : list Series) (ex : exn) :
  collect_drivers (row :: rows) = Raise ex ↔
  driver_of_row row = Raise ex
  ∨ ((∃ candidate, driver_of_row row = Ok candidate)
     ∧ collect_drivers rows = Raise ex).
Proof.
  rewrite collect_drivers_cons.
  destruct (driver_of_row row) as [candidate|ex1]; res_step.
  - destruct (collect_drivers rows) as [drivers|ex2]; res_step.
    + split; [done|]. by intros [? | [_ ?]].
    + split; [intros [= ->]; right; eauto|]. by intros [? | [_ [= ->]]].
  - split; [intros [= ->]; by left|]. by intros [[= ->] | [[? ?] _]].
Qed.

Lemma collect_drivers_raises (rows : list Series) (ex : exn) :
  collect_drivers rows = Raise ex ↔
  ∃ before row after,
    rows = (before ++ row :: after)%list
    ∧ Forall (λ r, ∃ candidate, driver_of_row r = Ok candidate) before
    ∧ driver_of_row row = Raise ex.
Proof.
  induction rows as [|row rows IH].
  - split; [done|]. by intros ([|??] & ? & ? & ? & _).
  - rewrite collect_drivers_raises_cons, IH. split.
    + intros [Hrow | [Hok (before & row' & after & -> & Hb & Hr)]].
      * exists [], row, rows. split; [done|]. split; [constructor | done].
      * exists (row :: before), row', after. split; [done|].
        split; [by constructor | done].
    + intros ([|r before] & row' & after & Heq & Hb & Hr).
      * injection Heq as -> _. by left.
      * injection Heq as -> ->. apply Forall_cons in Hb as [Hok Hb].
        right. split; [done|]. by exists before, row', after.
Qed.

(** X16.  On a non-empty table with pairwise distinct column labels, and
    with a usable event name, the engine raises exactly at the first row,
    in table order, that has no position cell ([KeyError]), or a position
    that is not missing and that [int] rejects ([int]'s exception), or a
    readable position and no team cell ([KeyError]); the rows before it are
    read without error, and a row whose position is missing never makes it
    raise. *)
Theorem engine_raises_at_first_unreadable_row
    (df : DataFrame) (event_info : option event) (g : rng) (ex : exn) :
  df_empty df = false →
  NoDup (columns df) →
  event_name_usable event_info →
  generate_prediction (Some df) event_info g = Raise ex
  ↔ ∃ before row after,
      iterrows df = (before ++ row :: after)%list
      ∧ Forall (λ r, ∀ ex', ¬ row_raises r ex') before
      ∧ row_raises row ex.
Proof.
  intros He _ Hev. rewrite (generate_prediction_raises _ _ _ _ He Hev).
  rewrite collect_drivers_raises. split.
  - intros (before & row & after & Heq & Hb & Hr).
    exists before, row, after. split; [done|]. split; [|by apply driver_of_row_raises].
    eapply Forall_impl; [exact Hb|]. intros r [c Hc] ex' Hr'.
    apply driver_of_row_raises in Hr'. congruence.
  - intros (before & row & after & Heq & Hb & Hr).
    exists before, row, after. split; [done|]. split; [|by apply driver_of_row_raises].
    eapply Forall_impl; [exact Hb|]. intros r Hno.
    destruct (driver_of_row r) as [c|ex'] eqn:Hd; [eauto|].
    by destruct (Hno ex'); apply driver_of_row_raises.
Qed.



End Engine.

(** * The properties at sample inputs *)

(** C1 at absent standings. *)
Lemma generate_prediction_no_standings_witness :
  generate_prediction int_of_text lower repr_integral None (Some monaco) draws_low
  = Ok {[ "error" :=
            VScalar (SStr "Cannot generate prediction without driver standings.") ]}.
Proof.
  apply (generate_prediction_no_standings int_of_text lower repr_integral
      None (Some monaco) draws_low).
  left. reflexivity.
Defined.

Lemma race_results_not_empty : df_empty race_results = false.
Proof. reflexivity. Defined.

Lemma race_results_candidates :
  collect_drivers int_of_text repr_integral
      (iterrows race_results) = Ok race_candidates.
Proof. vm_compute. reflexivity. Defined.

Lemma monaco_usable : event_name_usable (Some monaco).
Proof. right. exists "Monaco Grand Prix". reflexivity. Defined.

(** C2 at [race_results], whose top pool has four entries. *)
Lemma podium_favorites_from_top_pool_witness :
  df_empty race_results = false
  ∧ collect_drivers int_of_text repr_integral
      (iterrows race_results) = Ok race_candidates
  ∧ event_name_usable (Some monaco)
  ∧ ∃ r podium,
      generate_prediction int_of_text lower repr_integral
          (Some race_results) (Some monaco) draws_high
        = Ok r
      ∧ r !! "podium_favorites" = Some (VDrivers podium)
      ∧ length podium = 3%nat
      ∧ Forall (λ d, position d ≤ 5) podium.
Proof.
  split; [exact race_results_not_empty|].
  split; [exact race_results_candidates|].
  split; [exact monaco_usable|].
  destruct (podium_favorites_from_top_pool int_of_text lower repr_integral
      race_results (Some monaco)
              draws_high race_candidates race_results_not_empty
              race_results_candidates monaco_usable)
    as (r & podium & Hr & Hp & _ & _ & Hall & _ & H3 & _).
  exists r, podium. split; [exact Hr|]. split; [exact Hp|].
  split; [|exact Hall]. apply H3. vm_compute. lia.
Defined.

(** C3 at [race_results]: one driver in the mid pool, one in the low pool. *)
Lemma dark_horse_and_surprise_from_pools_witness :
  df_empty race_results = false
  ∧ collect_drivers int_of_text repr_integral
      (iterrows race_results) = Ok race_candidates
  ∧ event_name_usable (Some monaco)
  ∧ ∃ r dh ps,
      generate_prediction int_of_text lower repr_integral
          (Some race_results) (Some monaco) draws_high
        = Ok r
      ∧ r !! "dark_horse" = Some dh
      ∧ r !! "potential_surprise" = Some ps
      ∧ (dh = VScalar SNone ↔ filter (λ d, 4 ≤ position d ≤ 8) race_candidates = [])
      ∧ (ps = VScalar SNone ↔ filter (λ d, 9 ≤ position d ≤ 15) race_candidates = []).
Proof.
  split; [exact race_results_not_empty|].
  split; [exact race_results_candidates|].
  split; [exact monaco_usable|].
  destruct (dark_horse_and_surprise_from_pools int_of_text lower repr_integral
      race_results
              (Some monaco) draws_high race_candidates race_results_not_empty
              race_results_candidates monaco_usable)
    as (r & dh & ps & Hr & Hdh & Hps & _ & Hd & _ & Hp).
  exists r, dh, ps. split; [exact Hr|]. split; [exact Hdh|]. split; [exact Hps|].
  split; [exact Hd | exact Hp].
Defined.

Lemma race_results_readable : Forall (row_readable int_of_text) (iterrows race_results).
Proof.
  unfold iterrows, race_results. simpl.
  repeat (apply Forall_cons; split;
          [eexists _, _; split; [reflexivity|]; split; [reflexivity|];
           first [left; reflexivity | right; eexists; reflexivity]|]).
  apply Forall_nil. exact I.
Defined.


Lemma race_results_columns : NoDup (columns race_results).
Proof. apply (bool_decide_unpack _). vm_compute. exact I. Defined.



(** C6 disproved as it is stated: the row has its two name fields, which
    hold nothing ([None] and NaN), and an identifier; the name is made of
    the two empty cells and the identifier is not used. *)
Lemma driver_name_from_empty_cells :
  ∃ row d r,
    iterrows nameless_results = [row]
    ∧ series_find row "GivenName" = Some SNone
    ∧ series_find row "FamilyName" = Some (SFloat FNaN)
    ∧ series_find row "Driver" = Some (SStr "verstappen")
    ∧ series_find row "Abbreviation" = Some (SStr "VER")
    ∧ collect_drivers int_of_text repr_integral (iterrows nameless_results) = Ok [d]
    ∧ generate_prediction int_of_text lower repr_integral (Some nameless_results)
        (Some monaco) draws_low = Ok r
    ∧ r !! "podium_favorites" = Some (VDrivers [d])
    ∧ name d = SStr "None nan"
    ∧ name d ≠ SStr "verstappen".
Proof.
  eexists _, {| name := SStr "None nan"; position := 1;
                constructor := SStr "Red Bull Racing" |}, _.
  split; [reflexivity|]. split; [reflexivity|]. split; [reflexivity|].
  split; [reflexivity|]. split; [reflexivity|].
  split; [vm_compute; reflexivity|]. split; [vm_compute; reflexivity|].
  split; [vm_compute; reflexivity|]. split; [reflexivity | discriminate].
Qed.

Lemma named_results_labels :
  Forall (λ row : Series, NoDup (fst <$> row)) (iterrows named_results).
Proof.
  apply Forall_cons. split; [|apply Forall_nil; exact I].
  apply (bool_decide_unpack _). vm_compute. exact I.
Defined.

(** C6, as the code has it, at a row with given and family name. *)
Lemma driver_name_preference_order_witness :
  Forall (λ row : Series, NoDup (fst <$> row)) (iterrows named_results)
  ∧ collect_drivers int_of_text repr_integral (iterrows named_results)
    = Ok [ {| name := SStr "Max Verstappen"; position := 1;
              constructor := SStr "Red Bull Racing" |} ]
  ∧ Forall2 (λ row d,
               (∀ given family,
                  series_find row "GivenName" = Some given →
                  series_find row "FamilyName" = Some family →
                  name d = SStr (py_str repr_integral given +:+ " "
                                 +:+ py_str repr_integral family))
               ∧ (series_find row "GivenName" = None
                  ∨ series_find row "FamilyName" = None →
                  (∀ ident, series_find row "Driver" = Some ident → name d = ident)
                  ∧ (series_find row "Driver" = None →
                     (∀ abbr, series_find row "Abbreviation" = Some abbr →
                              name d = SStr (py_str repr_integral abbr))
                     ∧ (series_find row "Abbreviation" = None →
                        name d = SStr "Unknown"))))
      (List.filter row_kept (iterrows named_results))
      [ {| name := SStr "Max Verstappen"; position := 1;
           constructor := SStr "Red Bull Racing" |} ].
Proof.
  assert (Hc : collect_drivers int_of_text repr_integral (iterrows named_results)
               = Ok [ {| name := SStr "Max Verstappen"; position := 1;
                         constructor := SStr "Red Bull Racing" |} ])
    by (vm_compute; reflexivity).
  split; [exact named_results_labels|]. split; [exact Hc|].
  exact (driver_name_preference_order int_of_text repr_integral _ _
           named_results_labels Hc).
Defined.

Lemma obscuretown_usable : event_name_usable (Some obscuretown).
Proof. right. exists "Obscuretown Grand Prix". reflexivity. Defined.

(** C7 at a dict that has a name and no location. *)
Lemma unknown_event_and_location_witness :
  df_empty race_results = false
  ∧ collect_drivers int_of_text repr_integral
      (iterrows race_results) = Ok race_candidates
  ∧ event_name_usable (Some obscuretown)
  ∧ field_absent (Some obscuretown) "Location"
  ∧ ∃ r,
      generate_prediction int_of_text lower repr_integral
          (Some race_results) (Some obscuretown)
        draws_low = Ok r
      ∧ r !! "location" = Some (VScalar (SStr "Unknown Location")).
Proof.
  split; [exact race_results_not_empty|].
  split; [exact race_results_candidates|].
  split; [exact obscuretown_usable|].
  assert (Habs : field_absent (Some obscuretown) "Location") by reflexivity.
  split; [exact Habs|].
  destruct (unknown_event_and_location int_of_text lower repr_integral
      race_results (Some obscuretown)
              draws_low race_candidates race_results_not_empty
              race_results_candidates obscuretown_usable)
    as (r & Hr & _ & Hloc).
  exists r. split; [exact Hr | exact (Hloc Habs)].
Defined.

Lemma dated_schedule_sorted : sorted_by_date dated_schedule.
Proof.
  unfold sorted_by_date, dated_schedule.
  repeat (apply SSorted_cons; [|repeat (apply List.Forall_cons; [simpl; lia|]);
                                 apply List.Forall_nil]).
  apply SSorted_nil.
Defined.

(** C8 disproved as it is stated: on a schedule that is not listed by date
    the event returned is the first from [now] on, not the earliest. *)
Lemma get_next_gp_first_not_earliest :
  get_next_gp (Ok shuffled_schedule) exact_name 100 None = (Some round_a, None)
  ∧ round_b ∈ shuffled_schedule
  ∧ 100 ≤ EventDate round_b
  ∧ EventDate round_b < EventDate round_a.
Proof.
  split; [reflexivity|]. split; [|simpl; lia].
  apply list_elem_of_further, list_elem_of_here.
Qed.

(** C8, as the code has it, on a schedule listed by date. *)
Lemma get_next_gp_contract_witness :
  sorted_by_date dated_schedule
  ∧ round_c ∈ dated_schedule
  ∧ 250 ≤ EventDate round_c
  ∧ ∃ e,
      get_next_gp (Ok dated_schedule) exact_name 250 None = (Some e, None)
      ∧ e ∈ dated_schedule ∧ 250 ≤ EventDate e
      ∧ ∀ e', e' ∈ dated_schedule → 250 ≤ EventDate e' → EventDate e ≤ EventDate e'.
Proof.
  assert (Hin : round_c ∈ dated_schedule)
    by (apply list_elem_of_further, list_elem_of_further, list_elem_of_here).
  assert (Hfut : 250 ≤ EventDate round_c) by (simpl; lia).
  split; [exact dated_schedule_sorted|]. split; [exact Hin|]. split; [exact Hfut|].
  destruct (get_next_gp_contract (Ok dated_schedule) exact_name 250 None)
    as [Hnext _].
  exact (Hnext dated_schedule round_c eq_refl eq_refl dated_schedule_sorted Hin Hfut).
Defined.

(** C9 at [race_results]: the pools of a run. *)
Lemma pools_independent_of_draws_witness :
  ∃ pools r,
    generate_prediction_run int_of_text lower repr_integral
        (Some race_results) (Some monaco) draws_high
      = Ok (Some pools, r)
    ∧ map position (top_contenders pools) = [1; 2; 4; 3]
    ∧ map position (midfield_strong pools) = [4]
    ∧ map position (midfield_pack pools) = [9].
Proof.
  destruct (pools_independent_of_draws int_of_text lower repr_integral) as (_ & Hpools & _).
  destruct (generate_prediction_run int_of_text lower repr_integral
      (Some race_results) (Some monaco)
              draws_high) as [[pools r]|e] eqn:Hrun; [|vm_compute in Hrun; discriminate Hrun].
  destruct (Hpools race_results (Some monaco) draws_high pools r
              race_results_not_empty Hrun) as (drivers & Hc & ->).
  rewrite race_results_candidates in Hc. injection Hc as <-.
  eexists _, r. split; [reflexivity|]. vm_compute. auto.
Defined.

(** C10 at absent standings and at [race_results]. *)
Lemma result_keys_distinguish_outcomes_witness :
  (∃ r,
     generate_prediction int_of_text lower repr_integral
         (Some race_results) (Some monaco) draws_low
       = Ok r
     ∧ dom r = {[ "event_name"; "location"; "tidbit"; "podium_favorites";
                  "dark_horse"; "potential_surprise" ]}
     ∧ r !! "error" = None)
  ∧ (∃ r,
       generate_prediction int_of_text lower repr_integral
           None (Some monaco) draws_low = Ok r
       ∧ dom r = {[ "error" ]}).
Proof.
  split.
  - destruct (generate_prediction int_of_text lower repr_integral
      (Some race_results) (Some monaco)
                draws_low) as [r|e] eqn:Hgp; [|vm_compute in Hgp; discriminate Hgp].
    destruct (result_keys_distinguish_outcomes int_of_text lower repr_integral
        _ _ _ _ Hgp)
      as [Hsome _].
    destruct (Hsome (ex_intro _ race_results (conj eq_refl race_results_not_empty)))
      as (Hdom & Herr & _).
    exists r. split; [reflexivity|]. split; [exact Hdom | exact Herr].
  - destruct (result_keys_distinguish_outcomes int_of_text lower repr_integral
      None (Some monaco)
                draws_low _ eq_refl) as [_ Hnone].
    destruct (Hnone (or_introl eq_refl)) as [Hdom _].
    eexists. split; [reflexivity | exact Hdom].
Defined.

(** * The further properties at sample inputs *)

(** X1 on a schedule that is not in date order. *)
Lemma get_next_gp_first_future_row_witness :
  get_next_gp (Ok shuffled_schedule) exact_name 100 None = (Some round_a, None)
  ∧ 100 ≤ EventDate round_a
  ∧ ∃ before after,
      Ok shuffled_schedule = Ok (before ++ round_a :: after)%list
      ∧ Forall (λ e', EventDate e' < 100) before.
Proof.
  assert (H : get_next_gp (Ok shuffled_schedule) exact_name 100 None
              = (Some round_a, None)) by reflexivity.
  split; [exact H|].
  destruct (get_next_gp_first_future_row (Ok shuffled_schedule) exact_name 100 None
              round_a H) as [Hfut Hfirst].
  split; [exact Hfut | exact (Hfirst eq_refl)].
Defined.

Lemma season_fetched : season_service 2025 = Ok season.
Proof. reflexivity. Defined.

(** X2 at a time when two races of the season are completed. *)
Lemma standings_of_last_completed_race_witness :
  season_service 2025 = Ok season
  ∧ get_driver_standings 2025 season_service results_service 350
    = (Some race_results, None).
Proof.
  split; [exact season_fetched|].
  destruct (standings_of_last_completed_race 2025 season_service results_service 350
              season race_results season_fetched) as [[_ Hback] _].
  apply Hback.
  exists [ {| round_event := round_b; RoundNumber := 9 |} ],
         {| round_event := round_a; RoundNumber := 10 |},
         [ {| round_event := round_c; RoundNumber := 11 |} ].
  split; [reflexivity|]. split; [split; [reflexivity | simpl; lia]|].
  split; [|reflexivity].
  apply Forall_cons. split; [|apply Forall_nil; exact I].
  intros [_ Hpast]. simpl in Hpast. lia.
Defined.

(** X3 before the first race of the season. *)
Lemma standings_season_not_started_witness :
  season_service 2025 = Ok season
  ∧ get_driver_standings 2025 season_service results_service 100
    = (None, Some "The season has not started yet. No standings available.").
Proof.
  split; [exact season_fetched|].
  apply (standings_season_not_started 2025 season_service results_service 100 season
           season_fetched).
  repeat (apply Forall_cons; split; [intros [_ Hpast]; simpl in Hpast; lia|]).
  apply Forall_nil. exact I.
Defined.

(** X5 in mid-season: the results are those of round 10, the prediction is
    for the event of round 11. *)
Lemma standings_precede_predicted_event_witness :
  get_next_gp (map round_event <$> season_service 2025) exact_name 350 None
    = (Some round_c, None)
  ∧ get_driver_standings 2025 season_service results_service 350
    = (Some race_results, None)
  ∧ ∃ schedule last_race,
      season_service 2025 = Ok schedule
      ∧ last_race ∈ schedule
      ∧ results_service 2025 (RoundNumber last_race) = Ok race_results
      ∧ EventDate (round_event last_race) < EventDate round_c
      ∧ round_event last_race ≠ round_c.
Proof.
  assert (Hnext : get_next_gp (map round_event <$> season_service 2025) exact_name
                    350 None = (Some round_c, None)) by reflexivity.
  assert (Hlast : get_driver_standings 2025 season_service results_service 350
                  = (Some race_results, None)) by reflexivity.
  split; [exact Hnext|]. split; [exact Hlast|].
  exact (standings_precede_predicted_event 2025 season_service exact_name
           results_service 350 None round_c race_results Hnext Hlast).
Defined.



(** X7 at [race_results]: nobody beyond position 15 is named, and every
    driver named comes from a row. *)
Lemma shown_drivers_come_from_rows_witness :
  ∃ r,
    generate_prediction int_of_text lower repr_integral
        (Some race_results) (Some monaco) draws_low
      = Ok r
    ∧ shown_drivers r ≠ []
    ∧ ∀ d, d ∈ shown_drivers r →
           position d ≤ 15 ∧ ∃ row, row ∈ iterrows race_results
                                    ∧ name d = preferred_name repr_integral row.
Proof.
  destruct (generate_prediction int_of_text lower repr_integral
      (Some race_results) (Some monaco)
              draws_low) as [r|e] eqn:Hgp; [|vm_compute in Hgp; discriminate Hgp].
  exists r. split; [reflexivity|]. split.
  - vm_compute in Hgp. injection Hgp as <-. vm_compute. discriminate.
  - intros d Hd.
    destruct (shown_drivers_come_from_rows int_of_text lower repr_integral
        race_results (Some monaco)
                draws_low r d race_results_not_empty Hgp Hd)
      as (Hle & row & pos & Hrow & _ & _ & _ & _ & Hname).
    split; [exact Hle|]. exists row. split; [exact Hrow | exact Hname].
Defined.

(** X8 at [race_results] with the low draws: the dark horse, at position 4,
    is also the third podium favourite; the surprise is neither. *)
Lemma picks_across_pools_witness :
  ∃ r podium dh ps,
    generate_prediction int_of_text lower repr_integral
        (Some race_results) (Some monaco) draws_low
      = Ok r
    ∧ r !! "podium_favorites" = Some (VDrivers podium)
    ∧ r !! "dark_horse" = Some dh
    ∧ r !! "potential_surprise" = Some ps
    ∧ (∀ d, ps = VDriver d → (d ∉ podium) ∧ (dh ≠ VDriver d))
    ∧ (∀ d, dh = VDriver d → d ∈ podium → 4 ≤ position d ≤ 5)
    ∧ (∃ d, dh = VDriver d ∧ d ∈ podium).
Proof.
  destruct (generate_prediction int_of_text lower repr_integral
      (Some race_results) (Some monaco)
              draws_low) as [r|e] eqn:Hgp; [|vm_compute in Hgp; discriminate Hgp].
  destruct (picks_across_pools int_of_text lower repr_integral
      race_results (Some monaco) draws_low r
              race_results_not_empty Hgp)
    as (podium & dh & ps & Hp & Hd & Hs & Hsur & Hover).
  exists r, podium, dh, ps. split; [reflexivity|]. split; [exact Hp|].
  split; [exact Hd|]. split; [exact Hs|]. split; [exact Hsur|].
  split; [exact Hover|].
  vm_compute in Hgp. injection Hgp as <-.
  vm_compute in Hp. injection Hp as <-. vm_compute in Hd. injection Hd as <-.
  eexists. split; [reflexivity|].
  apply list_elem_of_further, list_elem_of_further, list_elem_of_here.
Defined.

(** X9 at a dict with a name and no location. *)
Lemma event_name_and_location_defaults_witness :
  ∃ r,
    generate_prediction int_of_text lower repr_integral
        (Some race_results) (Some obscuretown)
      draws_low = Ok r
    ∧ r !! "event_name" = Some (VScalar (SStr "Obscuretown Grand Prix"))
    ∧ r !! "location" = Some (VScalar (SStr "Unknown Location")).
Proof.
  destruct (generate_prediction int_of_text lower repr_integral
      (Some race_results) (Some obscuretown)
              draws_low) as [r|e] eqn:Hgp; [|vm_compute in Hgp; discriminate Hgp].
  destruct (event_name_and_location_defaults int_of_text lower repr_integral
      race_results
              (Some obscuretown) draws_low r race_results_not_empty Hgp)
    as (n & l & Hn & Hl & _ & _ & Hkeep & _ & _ & Hdef).
  exists r. split; [reflexivity|].
  rewrite Hn, Hl, (Hkeep "Obscuretown Grand Prix" eq_refl ltac:(discriminate)),
    (Hdef eq_refl).
  split; reflexivity.
Defined.

(** X10 at a name that holds Monza before Monaco, in mixed case: the entry
    is that of Monaco, the earlier of the two in the table. *)
Lemma tidbit_first_entry_by_name_only_witness :
  df_empty race_results = false
  ∧ collect_drivers int_of_text repr_integral
      (iterrows race_results) = Ok race_candidates
  ∧ event_name_of (Some monza_or_monaco) = SStr "monza or MONACO"
  ∧ event_location_of (Some monza_or_monaco) = SStr "Monza"
  ∧ ∃ r,
      generate_prediction int_of_text lower repr_integral (Some race_results)
        (Some monza_or_monaco) draws_low = Ok r
      ∧ r !! "tidbit"
        = Some (VScalar (SStr "The crown jewel. Overtaking is nearly impossible, so qualifying is everything.")).
Proof.
  split; [exact race_results_not_empty|].
  split; [exact race_results_candidates|].
  split; [reflexivity|]. split; [reflexivity|].
  destruct (tidbit_first_entry_by_name_only int_of_text lower repr_integral
              (λ s _, eq_refl) race_results (Some monza_or_monaco) draws_low
              race_candidates "monza or MONACO" race_results_not_empty
              race_results_candidates eq_refl)
    as (r & text & Hr & Ht & _ & _ & Hinst).
  exists r. split; [exact Hr|]. rewrite Ht, (Hinst eq_refl). reflexivity.
Defined.

Lemma race_candidates_plain : Forall (plain_driver repr_integral) race_candidates.
Proof.
  repeat (apply Forall_cons; split; [split; reflexivity|]).
  apply Forall_nil. exact I.
Defined.

(** X11 at [race_results]: both picks are shown. *)
Lemma panel_of_returned_prediction_witness :
  df_empty race_results = false
  ∧ collect_drivers int_of_text repr_integral
      (iterrows race_results) = Ok race_candidates
  ∧ event_name_usable (Some monaco)
  ∧ plain_text (py_str repr_integral (event_name_of (Some monaco))) = true
  ∧ plain_text (py_str repr_integral (event_location_of (Some monaco))) = true
  ∧ Forall (plain_driver repr_integral) race_candidates
  ∧ ∃ r name location tidbit podium dark_horse surprise,
      generate_prediction int_of_text lower repr_integral (Some race_results)
        (Some monaco) draws_low
        = Ok r
      ∧ print_prediction r
        = Ok (PredictionPanel name location tidbit (VDrivers podium)
                (Some dark_horse) (Some surprise)).
Proof.
  split; [exact race_results_not_empty|].
  split; [exact race_results_candidates|].
  split; [exact monaco_usable|].
  split; [reflexivity|]. split; [reflexivity|].
  split; [exact race_candidates_plain|].
  destruct (panel_of_returned_prediction int_of_text lower repr_integral race_results
              (Some monaco) draws_low race_candidates race_results_not_empty
              race_results_candidates monaco_usable eq_refl eq_refl
              race_candidates_plain)
    as (r & n & l & t & podium & dh & ps & Hr & _ & Hprint & Hdn & Hpn & _).
  destruct dh as [dh|];
    [|pose proof (proj1 Hdn eq_refl) as Hnil; vm_compute in Hnil; discriminate Hnil].
  destruct ps as [ps|];
    [|pose proof (proj1 Hpn eq_refl) as Hnil; vm_compute in Hnil; discriminate Hnil].
  exists r, n, l, t, podium, dh, ps. split; [exact Hr | exact Hprint].
Defined.


(** X13 in mid-season, asking for the Canadian Grand Prix by name. *)
Lemma main_prints_prediction_witness :
  get_next_gp (map round_event <$> season_service 2025) exact_name 350
    (Some "Canadian Grand Prix") = (Some round_c, None)
  ∧ get_driver_standings 2025 season_service results_service 350
    = (Some race_results, None)
  ∧ df_empty race_results = false
  ∧ NoDup (columns race_results)
  ∧ Forall (row_readable int_of_text) (iterrows race_results)
  ∧ collect_drivers int_of_text repr_integral
      (iterrows race_results) = Ok race_candidates
  ∧ Forall (plain_driver repr_integral) race_candidates
  ∧ plain_text (EventName round_c) = true
  ∧ plain_text (Location round_c) = true
  ∧ ∃ podium dark_horse surprise,
      main int_of_text lower repr_integral season_service exact_name results_service
        2025 350 2025 350 (Some "Canadian Grand Prix") draws_low
      = Ok [Display
              (PredictionPanel (VScalar (SStr "Canadian Grand Prix"))
                 (VScalar (SStr "Montréal"))
                 (VScalar (SStr "A circuit that always brings excitement!"))
                 (VDrivers podium) dark_horse surprise)].
Proof.
  assert (Hnext : get_next_gp (map round_event <$> season_service 2025) exact_name
                    350 (Some "Canadian Grand Prix") = (Some round_c, None))
    by reflexivity.
  assert (Hlast : get_driver_standings 2025 season_service results_service 350
                  = (Some race_results, None)) by reflexivity.
  split; [exact Hnext|]. split; [exact Hlast|].
  split; [exact race_results_not_empty|]. split; [exact race_results_columns|].
  split; [exact race_results_readable|]. split; [exact race_results_candidates|].
  split; [exact race_candidates_plain|]. split; [reflexivity|]. split; [reflexivity|].
  destruct (main_prints_prediction int_of_text lower repr_integral (λ s _, eq_refl)
              season_service exact_name results_service 2025 350 2025 350
              (Some "Canadian Grand Prix") draws_low round_c race_results
              race_candidates Hnext Hlast race_results_not_empty
              race_results_columns race_results_readable race_results_candidates
              race_candidates_plain eq_refl eq_refl)
    as (podium & dh & ps & Hmain & _).
  exists podium, dh, ps. exact Hmain.
Defined.

(** X14 with a results table that has no row. *)
Lemma main_reports_empty_results_witness :
  get_next_gp (map round_event <$> season_service 2025) exact_name 350 None
    = (Some round_c, None)
  ∧ get_driver_standings 2025 season_service empty_results_service 350
    = (Some empty_results, None)
  ∧ df_empty empty_results = true
  ∧ main int_of_text lower repr_integral season_service exact_name empty_results_service
      2025 350 2025 350 None draws_low
    = Ok [Welcome; Notice "Getting the next race on the calendar...";
          Display
            (ErrorLine
               (VScalar
                  (SStr "Cannot generate prediction without driver standings.")))].
Proof.
  assert (Hnext : get_next_gp (map round_event <$> season_service 2025) exact_name
                    350 None = (Some round_c, None)) by reflexivity.
  assert (Hlast : get_driver_standings 2025 season_service empty_results_service 350
                  = (Some empty_results, None)) by reflexivity.
  split; [exact Hnext|]. split; [exact Hlast|]. split; [reflexivity|].
  exact (main_reports_empty_results int_of_text lower repr_integral
      season_service exact_name
           empty_results_service 2025 350 2025 350 None draws_low round_c
           empty_results Hnext Hlast eq_refl).
Defined.

Lemma text_results_columns : NoDup (columns text_results).
Proof. apply (bool_decide_unpack _). vm_compute. exact I. Defined.

(** X15 with a results table holding a position that is not a number. *)
Lemma main_lets_engine_exception_escape_witness :
  get_next_gp (map round_event <$> season_service 2025) exact_name 350 None
    = (Some round_c, None)
  ∧ get_driver_standings 2025 season_service text_results_service 350
    = (Some text_results, None)
  ∧ df_empty text_results = false
  ∧ NoDup (columns text_results)
  ∧ collect_drivers int_of_text repr_integral (iterrows text_results)
    = Raise (ValueError "invalid literal for int() with base 10: 'DNF'")
  ∧ main int_of_text lower repr_integral season_service exact_name text_results_service
      2025 350 2025 350 None draws_low
    = Raise (ValueError "invalid literal for int() with base 10: 'DNF'").
Proof.
  assert (Hnext : get_next_gp (map round_event <$> season_service 2025) exact_name
                    350 None = (Some round_c, None)) by reflexivity.
  assert (Hlast : get_driver_standings 2025 season_service text_results_service 350
                  = (Some text_results, None)) by reflexivity.
  assert (Hc : collect_drivers int_of_text repr_integral (iterrows text_results)
               = Raise (ValueError "invalid literal for int() with base 10: 'DNF'"))
    by (vm_compute; reflexivity).
  split; [exact Hnext|]. split; [exact Hlast|]. split; [reflexivity|].
  split; [exact text_results_columns|]. split; [exact Hc|].
  exact (main_lets_engine_exception_escape int_of_text lower repr_integral
           season_service exact_name text_results_service 2025 350 2025 350 None
           draws_low round_c text_results _ Hnext Hlast eq_refl
           text_results_columns Hc).
Defined.

(** X16 at [text_results], which holds a position that is not a number. *)
Lemma engine_raises_at_first_unreadable_row_witness :
  df_empty text_results = false
  ∧ NoDup (columns text_results)
  ∧ event_name_usable (Some monaco)
  ∧ ∃ before row after,
      iterrows text_results = (before ++ row :: after)%list
      ∧ Forall (λ r, ∀ ex', ¬ row_raises int_of_text r ex') before
      ∧ row_raises int_of_text row
          (ValueError "invalid literal for int() with base 10: 'DNF'").
Proof.
  split; [reflexivity|]. split; [exact text_results_columns|].
  split; [exact monaco_usable|].
  assert (Hraise : generate_prediction int_of_text lower repr_integral
                     (Some text_results) (Some monaco) draws_low
                   = Raise (ValueError "invalid literal for int() with base 10: 'DNF'"))
    by (vm_compute; reflexivity).
  exact (proj1 (engine_raises_at_first_unreadable_row int_of_text lower repr_integral
                  text_results (Some monaco) draws_low _ eq_refl text_results_columns
                  monaco_usable) Hraise).
Defined.


